(** * SnpePosterior: leakage correction, masked log-probability and sampling

    A shallow embedding of [sbi/inference/posteriors/snpe_posterior.py].

    The posterior object is a record that is threaded through every method
    (the methods read and write [self]); the outside world (random number
    generator, allocation of tensor objects, the log of sampler invocations)
    is a second record threaded next to it.  A method either returns a value
    or raises a Python exception; in both cases the writes made so far stay.

    Tensors hold IEEE special values next to finite numbers.  The finite
    numbers are exact rationals: rounding is not modelled, the behaviour of
    [-inf], [+inf] and [nan] under comparison, subtraction and logarithm is. *)

From Stdlib Require Import ZArith QArith List Bool Lia.
From stdpp Require Import base option list strings gmap.

Local Open Scope string_scope.
Local Open Scope nat_scope.

(** ** Floating-point values *)

Inductive Float : Type :=
| Finite (q : Q)
| PosInf
| NegInf
| NaN.

Definition fzero : Float := Finite 0%Q.

(** [torch.isfinite] on one entry. *)
Definition isfinite (f : Float) : bool :=
  match f with
  | Finite _ => true
  | _ => false
  end.

(** Entry-wise [a - b]. *)
Definition fsub (a b : Float) : Float :=
  match a, b with
  | NaN, _ => NaN
  | _, NaN => NaN
  | Finite x, Finite y => Finite (x - y)%Q
  | Finite _, PosInf => NegInf
  | Finite _, NegInf => PosInf
  | PosInf, PosInf => NaN
  | PosInf, _ => PosInf
  | NegInf, NegInf => NaN
  | NegInf, _ => NegInf
  end.

(** Entry-wise [a != b]: [nan] differs from everything, itself included. *)
Definition fne (a b : Float) : bool :=
  match a, b with
  | Finite x, Finite y => negb (Qeq_bool x y)
  | PosInf, PosInf => false
  | NegInf, NegInf => false
  | _, _ => true
  end.

(** [torch.log] on one entry.  [ln] is the value of the natural logarithm
    on a positive finite argument. *)
Definition flog (ln : Q -> Q) (a : Float) : Float :=
  match a with
  | Finite q =>
      match (0 ?= q)%Q with
      | Lt => Finite (ln q)
      | Eq => NegInf
      | Gt => NaN
      end
  | PosInf => PosInf
  | NegInf => NaN
  | NaN => NaN
  end.

(** A correction factor in the range the data model gives it: (0, 1]. *)
Definition is_probability (a : Float) : bool :=
  match a with
  | Finite q =>
      match (0 ?= q)%Q, (q ?= 1)%Q with
      | Lt, (Lt | Eq) => true
      | _, _ => false
      end
  | _ => false
  end.

(** ** Tensors *)

(** A tensor value: its shape and its entries in row-major order. *)
Record Tensor : Type := mkTensor {
  tshape : list nat;
  tdata : list Float
}.

(** [torch.Size(shape).numel()]. *)
Definition numel (shape : list nat) : nat := fold_right Nat.mul 1 shape.

(** A Python reference to a tensor object: [x is y] compares addresses. *)
Record Ref : Type := mkRef {
  addr : nat;
  deref : Tensor
}.

Definition is_same_object (x y : Ref) : bool := addr x =? addr y.

Definition shape_eqb (s1 s2 : list nat) : bool :=
  bool_decide (s1 = s2).

(** ** Python exceptions and values *)

Inductive Exn : Type :=
| ValueError (msg : string)
| TypeError (msg : string)
| IndexError (msg : string)
| RuntimeError (msg : string)
| AssertionError (msg : string).

Inductive Result (A : Type) : Type :=
| Ok (a : A)
| Raise (e : Exn).
Arguments Ok {A} a.
Arguments Raise {A} e.

(** The values found in an [mcmc_parameters] dictionary. *)
Inductive Value : Type :=
| VInt (z : Z)
| VStr (s : string).

(** ** The posterior object

    The attributes of [self] that the methods of the file read or write.
    [mcmc_method] and [mcmc_parameters] are read through properties of the
    base class; a posterior without configured parameters holds the empty
    dictionary. *)

Record Posterior (Net Prior : Type) : Type := mkPosterior {
  _method_family : string;
  net : Net;
  _prior : Prior;
  default_x : option Ref;
  _leakage_density_correction_factor : option Float;
  _sample_with_mcmc : bool;
  mcmc_method : string;
  mcmc_parameters : gmap string Value
}.
Arguments mkPosterior {Net Prior}.
Arguments _method_family {Net Prior} p.
Arguments net {Net Prior} p.
Arguments _prior {Net Prior} p.
Arguments default_x {Net Prior} p.
Arguments _leakage_density_correction_factor {Net Prior} p.
Arguments _sample_with_mcmc {Net Prior} p.
Arguments mcmc_method {Net Prior} p.
Arguments mcmc_parameters {Net Prior} p.

(** ** The collaborators

    The density estimator, the prior, the rejection sampler of [sbi.utils],
    the chain runner of the base class and the torch primitives are not part
    of the file; the methods are written against this interface. *)

Class Collaborators : Type := {
  Net : Type;
  Prior : Type;
  Rng : Type;
  (** [net.log_prob(theta, x)]: one log-density per row of [theta]. *)
  net_log_prob : Net -> Tensor -> Tensor -> list Float;
  (** [prior.log_prob(theta)]: one log-density per row of [theta]. *)
  prior_log_prob : Prior -> Tensor -> list Float;
  (** [utils.sample_posterior_within_prior(net, prior, x, num_samples,
      show_progress_bars)]: the accepted samples and the acceptance rate. *)
  sample_posterior_within_prior :
    Net -> Prior -> Tensor -> nat -> bool -> Rng -> Tensor * Float * Rng;
  (** [self._sample_posterior_mcmc(x, num_samples, show_progress_bars,
      mcmc_method, **kwargs)]: reads the posterior, may reject the
      configuration. *)
  _sample_posterior_mcmc :
    Posterior Net Prior -> Tensor -> nat -> bool -> string ->
    gmap string Value -> Rng -> Result Tensor * Rng;
  (** [(a != b).any()] for operands of different shapes (torch broadcasts
      them or raises). *)
  broadcast_ne_any : Tensor -> Tensor -> Result bool;
  (** The shape test of [_ensure_x_consistent_with_default_x]. *)
  x_consistent_with_default : Tensor -> Tensor -> bool;
  (** Natural logarithm of a positive finite number. *)
  ln : Q -> Q;
  (** Dimensionality of the parameter [theta]. *)
  theta_dim : nat
}.

(** What the samplers promise: an acceptance rate in (0, 1] and
    [num_samples] rows of [theta_dim] entries. *)
Class Contracts (C : Collaborators) : Prop := {
  acceptance_is_probability :
    forall n p x k b r,
      0 < k ->
      is_probability (snd (fst (sample_posterior_within_prior n p x k b r))) = true;
  rejection_shape :
    forall n p x k b r,
      let t := fst (fst (sample_posterior_within_prior n p x k b r)) in
      tshape t = [k; theta_dim] /\ length (tdata t) = k * theta_dim;
  mcmc_shape :
    forall st x k b m kw r t,
      fst (_sample_posterior_mcmc st x k b m kw r) = Ok t ->
      tshape t = [k; theta_dim] /\ length (tdata t) = k * theta_dim
}.

(** ** The world and the method monad *)

(** One entry per invocation of a sampler, in call order. *)
Inductive Event : Type :=
| RejectionCall (x : Tensor) (num_samples : nat) (show_progress_bars : bool)
| McmcCall (x : Tensor) (num_samples : nat) (show_progress_bars : bool)
    (method : string) (kwargs : gmap string Value).

Section Methods.
Context {C : Collaborators}.

Record World : Type := mkWorld {
  rng : Rng;
  next_addr : nat;
  calls : list Event
}.

(** What a method call leaves behind. *)
Record Outcome (A : Type) : Type := mkOutcome {
  result : Result A;
  post : Posterior Net Prior;
  world : World
}.
Arguments mkOutcome {A}.
Arguments result {A} o.
Arguments post {A} o.
Arguments world {A} o.

Definition M (A : Type) : Type := Posterior Net Prior -> World -> Outcome A.

Definition ret {A} (a : A) : M A := fun st w => mkOutcome (Ok a) st w.

Definition raise {A} (e : Exn) : M A := fun st w => mkOutcome (Raise e) st w.

Definition bind {A B} (m : M A) (k : A -> M B) : M B :=
  fun st w =>
    let o := m st w in
    match result o with
    | Ok a => k a (post o) (world o)
    | Raise e => mkOutcome (Raise e) (post o) (world o)
    end.

Definition lift {A} (r : Result A) : M A :=
  fun st w => mkOutcome r st w.

(** Read an attribute of [self]. *)
Definition getattr {A} (f : Posterior Net Prior -> A) : M A :=
  fun st w => mkOutcome (Ok (f st)) st w.

Notation "'let*' x ':=' m 'in' k" := (bind m (fun x => k))
  (at level 10, x name, m at level 100, k at level 200).

(** ** Attribute writes *)

Definition with_sample_with_mcmc (b : bool) (st : Posterior Net Prior)
  : Posterior Net Prior :=
  mkPosterior (_method_family st) (net st) (_prior st) (default_x st)
    (_leakage_density_correction_factor st) b (mcmc_method st)
    (mcmc_parameters st).

Definition with_correction_factor (c : option Float) (st : Posterior Net Prior)
  : Posterior Net Prior :=
  mkPosterior (_method_family st) (net st) (_prior st) (default_x st)
    c (_sample_with_mcmc st) (mcmc_method st) (mcmc_parameters st).

Definition setattr (f : Posterior Net Prior -> Posterior Net Prior) : M unit :=
  fun st w => mkOutcome (Ok tt) (f st) w.

(** ** [set_sample_with_mcmc] and the [sample_with_mcmc] property *)

(** Returns [self]: the value handed back is the object after the write. *)
Definition set_sample_with_mcmc (use_mcmc : bool) : M (Posterior Net Prior) :=
  let* family := getattr _method_family in
  let* _ :=
    if negb use_mcmc then
      if negb (String.eqb family "snpe") then
        raise (ValueError (family ++ " cannot use MCMC for sampling."))
      else ret tt
    else ret tt in
  let* _ := setattr (with_sample_with_mcmc use_mcmc) in
  getattr id.

Definition sample_with_mcmc_getter : M bool := getattr _sample_with_mcmc.

Definition sample_with_mcmc_setter (value : bool) : M unit :=
  let* _ := set_sample_with_mcmc value in ret tt.

(** ** [leakage_correction] *)

(** The call of [utils.sample_posterior_within_prior], logged. *)
Definition call_sample_posterior_within_prior
    (x : Tensor) (num_samples : nat) (show_progress_bars : bool)
  : M (Tensor * Float) :=
  fun st w =>
    let '(samples, rate, r) :=
      sample_posterior_within_prior (net st) (_prior st) x num_samples
        show_progress_bars (rng w) in
    mkOutcome (Ok (samples, rate)) st
      (mkWorld r (next_addr w)
         (calls w ++ [RejectionCall x num_samples show_progress_bars])).

(** The local function [acceptance_at]. *)
Definition acceptance_at (num_rejection_samples : nat)
    (show_progress_bars : bool) (x : Ref) : M Float :=
  let* sr := call_sample_posterior_within_prior (deref x)
               num_rejection_samples show_progress_bars in
  ret (snd sr).

(** [(x != d).any()]. *)
Definition ne_any (x d : Tensor) : Result bool :=
  if shape_eqb (tshape x) (tshape d) then
    Ok (existsb (fun ab => fne (fst ab) (snd ab)) (combine (tdata x) (tdata d)))
  else broadcast_ne_any x d.

(** [self.default_x is None or (x is not self.default_x and
    (x != self.default_x).any())]. *)
Definition is_new_x (x : Ref) : M bool :=
  let* dx := getattr default_x in
  match dx with
  | None => ret true
  | Some d =>
      if negb (is_same_object x d) then lift (ne_any (deref x) (deref d))
      else ret false
  end.

(** The value handed back is the attribute itself, hence an option:
    [None] is Python's [None]. *)
Definition leakage_correction (x : Ref) (num_rejection_samples : nat)
    (force_update : bool) (show_progress_bars : bool) : M (option Float) :=
  let* new := is_new_x x in
  let* saved := getattr _leakage_density_correction_factor in
  let not_saved_at_default_x :=
    match saved with None => true | Some _ => false end in
  if new then
    let* a := acceptance_at num_rejection_samples show_progress_bars x in
    ret (Some a)
  else
    let* _ :=
      if not_saved_at_default_x || force_update then
       let* dx := getattr default_x in
       match dx with
       | Some d =>
           let* a := acceptance_at num_rejection_samples show_progress_bars d in
           setattr (with_correction_factor (Some a))
       | None =>
           (* not reached: [is_new_x] is true when [default_x] is [None] *)
           raise (TypeError "NoneType")
       end
      else ret tt in
    getattr _leakage_density_correction_factor.

(** ** [_log_prob_snpe] *)

(** Modelled from the spec: [batched_first_of_batch] of
    [sbi.utils.torchutils] is not part of the file.  It hands back the
    slice [x[:1]], the single representative context at the head of the
    batch, as a tensor object of its own. *)
Definition batched_first_of_batch (x : Tensor) : M Ref :=
  fun st w =>
    match tshape x with
    | [] =>
        mkOutcome (Raise (IndexError "slice of a 0-dim tensor")) st w
    | n :: rest =>
        mkOutcome
          (Ok (mkRef (next_addr w)
                 (mkTensor (Nat.min 1 n :: rest)
                    (firstn (Nat.min 1 n * numel rest) (tdata x)))))
          st (mkWorld (rng w) (S (next_addr w)) (calls w))
    end.

(** [torch.where(cond, a, other)] for one-dimensional [cond] and [a] and a
    scalar [other]: entry-wise on equal lengths, a single entry is
    broadcast, other lengths do not go together. *)
Definition torch_where (cond : list bool) (a : list Float) (other : Float)
  : Result (list Float) :=
  if length cond =? length a then
    Ok (map (fun ca : bool * Float => if fst ca then snd ca else other)
          (combine cond a))
  else if length cond =? 1 then
    Ok (map (fun v => if hd false cond then v else other) a)
  else if length a =? 1 then
    Ok (map (fun c : bool => if c then hd other a else other) cond)
  else Raise (RuntimeError "shapes cannot be broadcast").

(** The default of [num_rejection_samples]: 10_000. *)
Definition default_num_rejection_samples : nat := 100 * 100.

Definition _log_prob_snpe (theta x : Tensor) (norm_posterior : bool)
  : M (list Float) :=
  let* nn := getattr net in
  let unnorm_log_prob := net_log_prob nn theta x in
  let* pr := getattr _prior in
  let is_prior_finite := map isfinite (prior_log_prob pr theta) in
  let* masked_log_prob :=
    lift (torch_where is_prior_finite unnorm_log_prob NegInf) in
  let* log_factor :=
    if norm_posterior then
      let* x0 := batched_first_of_batch x in
      let* c := leakage_correction x0 default_num_rejection_samples
                  false false in
      match c with
      | Some c => ret (flog ln c)
      | None => raise (TypeError "log of None")
      end
    else ret fzero in
  ret (map (fun m => fsub m log_factor) masked_log_prob).

(** ** [sample] *)

(** Modelled from the spec: [_x_else_default_x] of the base class is not
    part of the file.  It hands back the explicit context if one is given,
    else the stored default, and fails if neither is there. *)
Definition _x_else_default_x (x : option Tensor) : M Tensor :=
  match x with
  | Some x => ret x
  | None =>
      let* dx := getattr default_x in
      match dx with
      | Some d => ret (deref d)
      | None => raise (ValueError "no context and no default context")
      end
  end.

(** Modelled from the spec: [atleast_2d_float32_tensor] of
    [sbi.utils.torchutils] is not part of the file.  A context with fewer
    than two dimensions gets leading dimensions of size one. *)
Definition atleast_2d_float32_tensor (x : Tensor) : Tensor :=
  match tshape x with
  | [] => mkTensor [1; 1] (tdata x)
  | [m] => mkTensor [1; m] (tdata x)
  | _ => x
  end.

(** Modelled from the spec: [_ensure_single_x] of the base class is not
    part of the file.  The context must be a batch of size one. *)
Definition _ensure_single_x (x : Tensor) : M unit :=
  match tshape x with
  | 1 :: _ => ret tt
  | _ => raise (ValueError "more than one context")
  end.

(** Modelled from the spec: [_ensure_x_consistent_with_default_x] of the
    base class is not part of the file.  A context that conflicts with an
    already fixed default context is refused. *)
Definition _ensure_x_consistent_with_default_x (x : Tensor) : M unit :=
  let* dx := getattr default_x in
  match dx with
  | Some d =>
      if x_consistent_with_default x (deref d) then ret tt
      else raise (AssertionError "context conflicts with the default")
  | None => ret tt
  end.

(** The keywords that [sample] passes by name next to [**mcmc_parameters];
    a dictionary that holds one of them makes the call itself fail. *)
Definition explicit_keywords : list string :=
  ["x"; "num_samples"; "show_progress_bars"; "mcmc_method"].

Definition clashes_with_keywords (kwargs : gmap string Value) : bool :=
  existsb (fun k => bool_decide (is_Some (kwargs !! k))) explicit_keywords.

(** The call of [self._sample_posterior_mcmc], logged. *)
Definition call_sample_posterior_mcmc (x : Tensor) (num_samples : nat)
    (show_progress_bars : bool) (method : string)
    (kwargs : gmap string Value) : M Tensor :=
  if clashes_with_keywords kwargs then
    raise (TypeError "got multiple values for keyword argument")
  else
    fun st w =>
      let '(res, r) :=
        _sample_posterior_mcmc st x num_samples show_progress_bars method
          kwargs (rng w) in
      mkOutcome res st
        (mkWorld r (next_addr w)
           (calls w ++
              [McmcCall x num_samples show_progress_bars method kwargs])).

(** [t.reshape] to the dimensions [lead] followed by [-1]: the last dimension is what is left of the
    entries; it cannot be found when [lead] multiplies to zero or does not
    divide the number of entries. *)
Definition reshape_infer_last (t : Tensor) (lead : list nat) : Result Tensor :=
  let total := numel (tshape t) in
  let known := numel lead in
  if known =? 0 then
    Raise (RuntimeError "the unspecified dimension cannot be inferred")
  else if negb (total mod known =? 0) then
    Raise (RuntimeError "shape is invalid for input size")
  else Ok (mkTensor (lead ++ [total / known]) (tdata t)).

(** The first three statements of [sample]: the context that is sampled
    at, or the failure of one of its checks. *)
Definition checked_context (x : option Tensor) : M Tensor :=
  let* x := _x_else_default_x x in
  let x := atleast_2d_float32_tensor x in
  let* _ := _ensure_single_x x in
  let* _ := _ensure_x_consistent_with_default_x x in
  ret x.

(** What the three per-call overrides resolve to. *)
Definition or_else {A} (override : option A) (stored : A) : A :=
  match override with
  | Some v => v
  | None => stored
  end.

Definition sample (sample_shape : list nat) (x : option Tensor)
    (show_progress_bars : bool) (sample_with_mcmc : option bool)
    (mcmc_method_arg : option string)
    (mcmc_parameters_arg : option (gmap string Value)) : M Tensor :=
  let* x := checked_context x in
  let num_samples := numel sample_shape in
  let* stored_mode := sample_with_mcmc_getter in
  let sample_with_mcmc := or_else sample_with_mcmc stored_mode in
  let* stored_method := getattr mcmc_method in
  let mcmc_method := or_else mcmc_method_arg stored_method in
  let* stored_parameters := getattr mcmc_parameters in
  let mcmc_parameters := or_else mcmc_parameters_arg stored_parameters in
  let* samples :=
    if sample_with_mcmc then
      call_sample_posterior_mcmc x num_samples show_progress_bars
        mcmc_method mcmc_parameters
    else
      let* sr := call_sample_posterior_within_prior x num_samples
                   show_progress_bars in
      ret (fst sr) in
  lift (reshape_infer_last samples sample_shape).

(** ** [__init__] *)

(** Modelled from the spec: the constructor of the base class is not part
    of the file.  It stores its arguments; there is no default context and
    no correction factor yet, and no [mcmc_parameters] means none.  The
    sampling mode is written by [set_sample_with_mcmc] alone. *)
Definition base_init (method_family : string) (neural_net : Net)
    (prior : Prior) (mcmc_method_arg : string)
    (mcmc_parameters_arg : option (gmap string Value)) : Posterior Net Prior :=
  mkPosterior method_family neural_net prior None None true mcmc_method_arg
    (or_else mcmc_parameters_arg ∅).

Definition __init__ (method_family : string) (neural_net : Net)
    (prior : Prior) (sample_with_mcmc : bool) (mcmc_method_arg : string)
    (mcmc_parameters_arg : option (gmap string Value)) (w : World)
  : Outcome (Posterior Net Prior) :=
  set_sample_with_mcmc sample_with_mcmc
    (base_init method_family neural_net prior mcmc_method_arg
       mcmc_parameters_arg) w.

End Methods.

Arguments World C : clear implicits.
Arguments Outcome C A : clear implicits.
Arguments M C A : clear implicits.
Arguments mkWorld {C} rng next_addr calls.
Arguments rng {C} w.
Arguments next_addr {C} w.
Arguments calls {C} w.
Arguments mkOutcome {C A} result post world.
Arguments result {C A} o.
Arguments post {C A} o.
Arguments world {C A} o.

(** ** Notions of the specification *)

(** Two contexts are equal in value: same shape and no entry that differs. *)
Definition value_equal (x d : Tensor) : bool :=
  shape_eqb (tshape x) (tshape d)
  && forallb (fun ab : Float * Float => negb (fne (fst ab) (snd ab)))
       (combine (tdata x) (tdata d)).

(** A context is recognised as the default: it is the stored object itself
    or it is equal to it in value. *)
Definition is_default {Net Prior} (st : Posterior Net Prior) (x : Ref) : bool :=
  match default_x st with
  | Some d => is_same_object x d || value_equal (deref x) (deref d)
  | None => false
  end.

(** Contexts have one fixed feature shape: that of the default, if set. *)
Definition has_context_shape {Net Prior} (st : Posterior Net Prior)
    (x : Tensor) : bool :=
  match default_x st with
  | Some d => shape_eqb (tshape x) (tshape (deref d))
  | None => true
  end.

(** The shape of the slice [x[:1]]. *)
Definition first_of_batch_shape (x : Tensor) : option (list nat) :=
  match tshape x with
  | [] => None
  | n :: rest => Some (Nat.min 1 n :: rest)
  end.

(** A batch of contexts whose head has the fixed feature shape. *)
Definition is_context_batch {Net Prior} (st : Posterior Net Prior)
    (x : Tensor) : bool :=
  match first_of_batch_shape x, default_x st with
  | None, _ => false
  | Some s, Some d => shape_eqb s (tshape (deref d))
  | Some _, None => true
  end.

(** A stored correction factor, if any, is a probability in (0, 1]. *)
Definition factor_in_range {Net Prior} (st : Posterior Net Prior) : bool :=
  match _leakage_density_correction_factor st with
  | Some c => is_probability c
  | None => true
  end.

(** The density-estimation family. *)
Definition is_density_estimation {Net Prior} (st : Posterior Net Prior) : bool :=
  String.eqb (_method_family st) "snpe".

(** The stored sampling mode is one the method family permits. *)
Definition mode_legal {Net Prior} (st : Posterior Net Prior) : bool :=
  is_density_estimation st || _sample_with_mcmc st.

(** A sampler call is a call of the rejection sampler. *)
Definition is_rejection_call (e : Event) : bool :=
  match e with
  | RejectionCall _ _ _ => true
  | McmcCall _ _ _ _ _ => false
  end.

(** The keyword dictionary of a chain-runner call. *)
Definition kwargs_of (e : Event) : option (gmap string Value) :=
  match e with
  | McmcCall _ _ _ _ kw => Some kw
  | RejectionCall _ _ _ => None
  end.

(** The keyword dictionary of the latest sampler call on a log. *)
Definition passed_kwargs (log : list Event) : option (gmap string Value) :=
  match last log with
  | Some e => kwargs_of e
  | None => None
  end.

(** Modelled from the spec: the signature of [_sample_posterior_mcmc] is not
    part of the file.  Binding a keyword dictionary against the keyword
    defaults of the chain runner is the merge of the specification:
    a key of the dictionary wins, every other key keeps its default. *)
Definition merge (defaults overrides : gmap string Value)
  : gmap string Value :=
  overrides ∪ defaults.

Section Notions.
Context {C : Collaborators}.

(** The acceptance rate the rejection sampler reports when it is asked for
    [k] samples at [x] in the world [w]. *)
Definition acceptance_rate (st : Posterior Net Prior) (w : World C)
    (x : Tensor) (k : nat) (show_progress_bars : bool) : Float :=
  snd (fst (sample_posterior_within_prior (net st) (_prior st) x k
              show_progress_bars (rng w))).

(** The samples it hands back. *)
Definition rejection_samples (st : Posterior Net Prior) (w : World C)
    (x : Tensor) (k : nat) (show_progress_bars : bool) : Tensor :=
  fst (fst (sample_posterior_within_prior (net st) (_prior st) x k
              show_progress_bars (rng w))).

(** The world after that one call: the generator has advanced and the call
    is on the log. *)
Definition after_rejection (st : Posterior Net Prior) (w : World C)
    (x : Tensor) (k : nat) (show_progress_bars : bool) : World C :=
  mkWorld
    (snd (sample_posterior_within_prior (net st) (_prior st) x k
            show_progress_bars (rng w)))
    (next_addr w)
    (calls w ++ [RejectionCall x k show_progress_bars]).

(** The estimator's log-densities with the entries outside the prior
    support set to [-inf]: the value of [masked_log_prob]. *)
Definition masked_log_prob (st : Posterior Net Prior) (theta x : Tensor)
  : Result (list Float) :=
  torch_where (map isfinite (prior_log_prob (_prior st) theta))
    (net_log_prob (net st) theta x) NegInf.

(** The same for one call of the chain runner. *)
Definition after_mcmc (st : Posterior Net Prior) (w : World C)
    (x : Tensor) (k : nat) (show_progress_bars : bool) (method : string)
    (kwargs : gmap string Value) : World C :=
  mkWorld
    (snd (_sample_posterior_mcmc st x k show_progress_bars method kwargs
            (rng w)))
    (next_addr w)
    (calls w ++ [McmcCall x k show_progress_bars method kwargs]).

(** The slice [x[:1]] as a value: what [batched_first_of_batch] wraps in a
    new tensor object. *)
Definition first_of_batch (x : Tensor) : option Tensor :=
  match tshape x with
  | [] => None
  | n :: rest =>
      Some (mkTensor (Nat.min 1 n :: rest)
              (firstn (Nat.min 1 n * numel rest) (tdata x)))
  end.

(** The number of samples a sampler call asked for. *)
Definition event_num_samples (e : Event) : nat :=
  match e with
  | RejectionCall _ k _ => k
  | McmcCall _ k _ _ _ => k
  end.

(** ** Sequences of method calls

    A caller uses the posterior through the methods of the class, one call
    after the other; a call that raises leaves the object usable. *)

Inductive Call : Type :=
| SetSampleWithMcmc (use_mcmc : bool)
| AssignSampleWithMcmc (value : bool)
| LeakageCorrection (x : Ref) (num_rejection_samples : nat)
    (force_update show_progress_bars : bool)
| LogProbSnpe (theta x : Tensor) (norm_posterior : bool)
| Sample (sample_shape : list nat) (x : option Tensor)
    (show_progress_bars : bool) (sample_with_mcmc : option bool)
    (mcmc_method_arg : option string)
    (mcmc_parameters_arg : option (gmap string Value)).

(** The posterior and the world one call leaves behind. *)
Definition call_method (c : Call) (st : Posterior Net Prior) (w : World C)
  : Posterior Net Prior * World C :=
  match c with
  | SetSampleWithMcmc b =>
      let o := set_sample_with_mcmc b st w in (post o, world o)
  | AssignSampleWithMcmc b =>
      let o := sample_with_mcmc_setter b st w in (post o, world o)
  | LeakageCorrection x n force show =>
      let o := leakage_correction x n force show st w in (post o, world o)
  | LogProbSnpe theta x norm =>
      let o := _log_prob_snpe theta x norm st w in (post o, world o)
  | Sample shape x show swm meth params =>
      let o := sample shape x show swm meth params st w in (post o, world o)
  end.

Fixpoint call_methods (cs : list Call) (st : Posterior Net Prior)
    (w : World C) : Posterior Net Prior * World C :=
  match cs with
  | [] => (st, w)
  | c :: cs =>
      let sw := call_method c st w in
      call_methods cs (fst sw) (snd sw)
  end.

(** The calls that assign the sampling mode. *)
Definition writes_mode (c : Call) : bool :=
  match c with
  | SetSampleWithMcmc _ | AssignSampleWithMcmc _ => true
  | _ => false
  end.

(** The calls that may estimate and cache a correction factor. *)
Definition writes_factor (c : Call) : bool :=
  match c with
  | LeakageCorrection _ _ _ _ => true
  | LogProbSnpe _ _ norm => norm
  | _ => false
  end.

(** A call that estimates asks for at least one rejection sample. *)
Definition asks_for_samples (c : Call) : bool :=
  match c with
  | LeakageCorrection _ n _ _ => 0 <? n
  | _ => true
  end.

End Notions.

(** ** A small instance

    A one-dimensional parameter with a uniform prior on [0, 1], an
    estimator of constant density, and samplers that answer with the
    requested number of draws at 1/2. *)

Module Demo.

Definition in_unit_interval (v : Float) : bool :=
  match v with
  | Finite q => Qle_bool 0 q && Qle_bool q 1
  | _ => false
  end.

Definition draws (k : nat) : Tensor :=
  mkTensor [k; 1] (repeat (Finite (1 # 2)) k).

Definition toy : Collaborators := {|
  Net := unit;
  Prior := unit;
  Rng := nat;
  net_log_prob := fun _ theta _ => map (fun _ => Finite (-1)) (tdata theta);
  prior_log_prob := fun _ theta =>
    map (fun v => if in_unit_interval v then fzero else NegInf) (tdata theta);
  sample_posterior_within_prior := fun _ _ _ k _ r =>
    (draws k, Finite (4 # 5), S r);
  _sample_posterior_mcmc := fun _ _ k _ _ _ r => (Ok (draws k), S r);
  broadcast_ne_any := fun _ _ =>
    Raise (RuntimeError "shapes cannot be broadcast");
  x_consistent_with_default := fun x d => shape_eqb (tshape x) (tshape d);
  ln := fun q => (q - 1)%Q;
  theta_dim := 1
|}.

Definition x_o : Ref := mkRef 0 (mkTensor [1; 2] [Finite 3; Finite 4]).

(** The same observation in another tensor object. *)
Definition x_copy : Ref := mkRef 7 (mkTensor [1; 2] [Finite 3; Finite 4]).

Definition x_other : Ref := mkRef 8 (mkTensor [1; 2] [Finite 3; Finite 5]).

Definition posterior (family : string) (factor : option Float)
    (params : gmap string Value) : @Posterior unit unit :=
  mkPosterior family tt tt (Some x_o) factor true "slice_np" params.

Definition snpe : @Posterior unit unit := posterior "snpe" None ∅.

Definition snpe_cached : @Posterior unit unit :=
  posterior "snpe" (Some (Finite (4 # 5))) ∅.

Definition snl : @Posterior unit unit := posterior "snl" None ∅.

Definition configured : gmap string Value :=
  {[ "thin" := VInt 5; "warmup_steps" := VInt 100 ]}.

Definition snpe_configured : @Posterior unit unit :=
  posterior "snpe" None configured.

Definition w0 : World toy := @mkWorld toy 0 1 [].

(** A session on the likelihood-family posterior: the caller tries to turn
    MCMC off twice, evaluates the density and samples. *)
Definition session : list Call :=
  [ SetSampleWithMcmc false;
    LogProbSnpe (mkTensor [1; 1] [Finite (1 # 2)]) (deref x_o) true;
    AssignSampleWithMcmc false;
    Sample [2] None false None None None;
    LeakageCorrection x_other 10 true false ].

(** Two parameters, the first inside the support and the second outside. *)
Definition thetas : Tensor := mkTensor [2; 1] [Finite (1 # 2); Finite 2].

End Demo.

(** * Properties *)

Section Properties.
Context {C : Collaborators}.

(** ** Unfolding the method monad *)

Ltac run :=
  cbv beta delta
    [bind ret raise lift getattr setattr acceptance_at
     call_sample_posterior_within_prior sample_with_mcmc_getter] in *;
  cbn [result post world] in *.

(** One step: binds and attribute accesses are unfolded, the calls of the
    samplers are kept. *)
Ltac step :=
  cbv beta delta [bind ret raise lift getattr setattr sample_with_mcmc_getter];
  cbn [result post world].

Lemma acceptance_at_run (st : Posterior Net Prior) (w : World C) (x : Ref)
    (n : nat) (show : bool) :
  acceptance_at n show x st w =
  mkOutcome (Ok (acceptance_rate st w (deref x) n show)) st
    (after_rejection st w (deref x) n show).
Proof.
  unfold acceptance_rate, after_rejection. run.
  destruct (sample_posterior_within_prior _ _ _ _ _ _) as [[s a] r].
  reflexivity.
Qed.

Lemma existsb_forallb_negb {A} (f : A -> bool) (l : list A) :
  existsb f l = negb (forallb (fun a => negb (f a)) l).
Proof.
  induction l as [|a l IH]; cbn; [reflexivity|].
  rewrite IH. destruct (f a); reflexivity.
Qed.

Lemma ne_any_same_shape (x d : Tensor) :
  shape_eqb (tshape x) (tshape d) = true ->
  ne_any x d = Ok (negb (value_equal x d)).
Proof.
  intros Hs. unfold ne_any, value_equal. rewrite Hs. cbn [andb].
  f_equal. apply existsb_forallb_negb.
Qed.

(** The test of [leakage_correction] agrees with the notion of the
    specification wherever the shapes go together. *)
Lemma is_new_x_default (st : Posterior Net Prior) (w : World C) (x : Ref) :
  is_default st x = true ->
  is_new_x x st w = mkOutcome (Ok false) st w.
Proof.
  unfold is_default, is_new_x. run.
  destruct (default_x st) as [d|]; [|discriminate].
  destruct (is_same_object x d); cbn; [reflexivity|].
  intros Hv. rewrite ne_any_same_shape.
  - rewrite Hv. reflexivity.
  - unfold value_equal in Hv. apply andb_true_iff in Hv. tauto.
Qed.

Lemma is_new_x_other (st : Posterior Net Prior) (w : World C) (x : Ref) :
  is_default st x = false ->
  has_context_shape st (deref x) = true ->
  is_new_x x st w = mkOutcome (Ok true) st w.
Proof.
  unfold is_default, has_context_shape, is_new_x. run.
  destruct (default_x st) as [d|]; [|reflexivity].
  intros Hd Hs. apply orb_false_iff in Hd as [Ho Hv].
  rewrite Ho. cbn. rewrite (ne_any_same_shape _ _ Hs), Hv. reflexivity.
Qed.

(** ** The three branches of [leakage_correction] *)

Lemma leakage_correction_new (st : Posterior Net Prior) (w : World C)
    (x : Ref) (n : nat) (force show : bool) :
  is_new_x x st w = mkOutcome (Ok true) st w ->
  leakage_correction x n force show st w =
  mkOutcome (Ok (Some (acceptance_rate st w (deref x) n show))) st
    (after_rejection st w (deref x) n show).
Proof.
  intros Hnew. unfold leakage_correction. step. rewrite Hnew. step.
  rewrite acceptance_at_run. reflexivity.
Qed.

Lemma leakage_correction_cached (st : Posterior Net Prior) (w : World C)
    (x : Ref) (n : nat) (show : bool) (c : Float) :
  is_new_x x st w = mkOutcome (Ok false) st w ->
  _leakage_density_correction_factor st = Some c ->
  leakage_correction x n false show st w = mkOutcome (Ok (Some c)) st w.
Proof.
  intros Hnew Hc. unfold leakage_correction. step. rewrite Hnew. step.
  rewrite Hc. cbn [orb]. step. exact (f_equal (fun v => mkOutcome (Ok v) st w) Hc).
Qed.

Lemma leakage_correction_refresh (st : Posterior Net Prior) (w : World C)
    (x d : Ref) (n : nat) (force show : bool) :
  is_new_x x st w = mkOutcome (Ok false) st w ->
  default_x st = Some d ->
  _leakage_density_correction_factor st = None \/ force = true ->
  let a := acceptance_rate st w (deref d) n show in
  leakage_correction x n force show st w =
  mkOutcome (Ok (Some a)) (with_correction_factor (Some a) st)
    (after_rejection st w (deref d) n show).
Proof.
  intros Hnew Hd Hwhy a. unfold leakage_correction. step. rewrite Hnew. step.
  assert ((match _leakage_density_correction_factor st with
           | Some _ => false
           | None => true
           end || force) = true) as ->.
  { destruct Hwhy as [-> | ->]; [reflexivity | apply orb_true_r]. }
  step. rewrite Hd. step. rewrite acceptance_at_run. reflexivity.
Qed.

Lemma is_new_x_frame (st : Posterior Net Prior) (w : World C) (x : Ref) :
  exists r, is_new_x x st w = mkOutcome r st w
            /\ (r = Ok false -> exists d, default_x st = Some d).
Proof.
  unfold is_new_x. step. destruct (default_x st) as [d|].
  - destruct (negb (is_same_object x d)); eauto.
  - eexists. split; [reflexivity | discriminate].
Qed.

(** Every call raises before anything happened, or returns a factor after
    at most one estimate. *)
Lemma leakage_correction_cases (st : Posterior Net Prior) (w : World C)
    (x : Ref) (n : nat) (force show : bool) :
  let o := leakage_correction x n force show st w in
  (exists e, o = mkOutcome (Raise e) st w)
  \/ o = mkOutcome (Ok (Some (acceptance_rate st w (deref x) n show))) st
           (after_rejection st w (deref x) n show)
  \/ (exists c, _leakage_density_correction_factor st = Some c
                /\ o = mkOutcome (Ok (Some c)) st w)
  \/ (exists d, default_x st = Some d /\
        let a := acceptance_rate st w (deref d) n show in
        o = mkOutcome (Ok (Some a)) (with_correction_factor (Some a) st)
              (after_rejection st w (deref d) n show)).
Proof.
  destruct (is_new_x_frame st w x) as ([[|] | e] & Hnew & Hd).
  - right; left. apply leakage_correction_new, Hnew.
  - destruct (Hd eq_refl) as [d Hdx].
    destruct (_leakage_density_correction_factor st) as [c|] eqn:Hc;
      [destruct force|].
    + right; right; right. exists d. split; [exact Hdx|].
      apply leakage_correction_refresh; auto.
    + right; right; left. exists c. split; [reflexivity|].
      apply leakage_correction_cached; assumption.
    + right; right; right. exists d. split; [exact Hdx|].
      apply leakage_correction_refresh; auto.
  - left. exists e. unfold leakage_correction. step. rewrite Hnew.
    reflexivity.
Qed.

Lemma is_default_frame (st : Posterior Net Prior) (c : option Float) (x : Ref) :
  is_default (with_correction_factor c st) x = is_default st x.
Proof. reflexivity. Qed.

(** C1.  For a context recognised as the default (the stored object itself,
    or a context equal to it in value): with a cached factor and without
    [force_update] the call returns the cached factor and neither estimates
    nor writes; otherwise it estimates the acceptance at the default
    context, stores the estimate as the cached factor and returns it.
    Either way, every later call at a default context without
    [force_update] returns that same value and estimates nothing. *)
Theorem leakage_correction_default_cached
    (st : Posterior Net Prior) (w : World C) (x : Ref) (n : nat)
    (force show : bool) :
  is_default st x = true ->
  let o := leakage_correction x n force show st w in
  (match _leakage_density_correction_factor st, force with
   | Some c, false =>
       result o = Ok (Some c) /\ post o = st /\ world o = w
   | _, _ =>
       exists d, default_x st = Some d /\
         let a := acceptance_rate st w (deref d) n show in
         result o = Ok (Some a) /\
         post o = with_correction_factor (Some a) st /\
         _leakage_density_correction_factor (post o) = Some a /\
         world o = after_rejection st w (deref d) n show
   end)
  /\ (forall (x' : Ref) (n' : nat) (show' : bool),
        is_default st x' = true ->
        leakage_correction x' n' false show' (post o) (world o) =
        mkOutcome (result o) (post o) (world o)).
Proof.
  intros Hdef o.
  pose proof (is_new_x_default st w x Hdef) as Hnew.
  assert (exists d, default_x st = Some d) as [d Hd].
  { unfold is_default in Hdef. destruct (default_x st); [eauto|discriminate]. }
  destruct (_leakage_density_correction_factor st) as [c|] eqn:Hc;
    [destruct force|].
  - subst o. rewrite (leakage_correction_refresh st w x d n true show Hnew Hd)
      by auto.
    cbn [result post world]. split.
    + exists d. cbn. auto.
    + intros x' n' show' Hdef'. apply leakage_correction_cached.
      * apply is_new_x_default. rewrite is_default_frame. exact Hdef'.
      * reflexivity.
  - subst o. rewrite (leakage_correction_cached st w x n show c Hnew Hc).
    cbn [result post world]. split; [auto|].
    intros x' n' show' Hdef'. apply leakage_correction_cached.
    + apply is_new_x_default. exact Hdef'.
    + exact Hc.
  - subst o. rewrite (leakage_correction_refresh st w x d n force show Hnew Hd)
      by auto.
    cbn [result post world]. split.
    + exists d. cbn. auto.
    + intros x' n' show' Hdef'. apply leakage_correction_cached.
      * apply is_new_x_default. rewrite is_default_frame. exact Hdef'.
      * reflexivity.
Qed.

(** C4.  For a context that is not recognised as the default (none is set,
    or the context is another object and differs in value), of the fixed
    context shape: the call estimates the acceptance at that very context,
    returns the estimate and leaves the posterior, the cached factor
    included, as it was; a second call estimates again. *)
Theorem leakage_correction_other_uncached
    (st : Posterior Net Prior) (w : World C) (x : Ref) (n : nat)
    (force show : bool) :
  is_default st x = false ->
  has_context_shape st (deref x) = true ->
  let o := leakage_correction x n force show st w in
  result o = Ok (Some (acceptance_rate st w (deref x) n show))
  /\ post o = st
  /\ _leakage_density_correction_factor (post o) =
     _leakage_density_correction_factor st
  /\ calls (world o) = (calls w ++ [RejectionCall (deref x) n show])%list
  /\ (let o' := leakage_correction x n force show (post o) (world o) in
      result o' = Ok (Some (acceptance_rate st (world o) (deref x) n show))
      /\ post o' = st
      /\ calls (world o') =
         (calls w ++ [RejectionCall (deref x) n show;
                      RejectionCall (deref x) n show])%list).
Proof.
  intros Hdef Hshape o.
  assert (forall w', leakage_correction x n force show st w' =
            mkOutcome (Ok (Some (acceptance_rate st w' (deref x) n show))) st
              (after_rejection st w' (deref x) n show)) as Hrun.
  { intros w'. apply leakage_correction_new, is_new_x_other; assumption. }
  subst o. rewrite (Hrun w). cbn [result post world].
  rewrite Hrun. cbn [result post world after_rejection calls].
  rewrite <- app_assoc. auto 10.
Qed.

(** ** [set_sample_with_mcmc] *)

(** C5.  Turning MCMC off for a family other than the density-estimation
    family raises [ValueError] and leaves the posterior, its sampling mode
    included, as it was; every other call writes the requested mode and
    nothing else, and returns the posterior object. *)
Theorem set_sample_with_mcmc_guard
    (st : Posterior Net Prior) (w : World C) (use_mcmc : bool) :
  let o := set_sample_with_mcmc use_mcmc st w in
  (use_mcmc = false -> is_density_estimation st = false ->
   result o =
     Raise (ValueError (_method_family st ++ " cannot use MCMC for sampling."))
   /\ post o = st
   /\ _sample_with_mcmc (post o) = _sample_with_mcmc st
   /\ world o = w)
  /\ (use_mcmc = true \/ is_density_estimation st = true ->
      result o = Ok (post o)
      /\ post o = with_sample_with_mcmc use_mcmc st
      /\ _sample_with_mcmc (post o) = use_mcmc
      /\ world o = w).
Proof.
  unfold set_sample_with_mcmc, is_density_estimation. step.
  destruct use_mcmc, (String.eqb (_method_family st) "snpe") eqn:Hf;
    cbn; split; intros H; try discriminate; eauto 10;
    destruct H; discriminate.
Qed.

(** The stored mode stays legal under [set_sample_with_mcmc], whether the
    call returns or raises. *)
Lemma set_sample_with_mcmc_legal
    (st : Posterior Net Prior) (w : World C) (use_mcmc : bool) :
  mode_legal st = true ->
  mode_legal (post (set_sample_with_mcmc use_mcmc st w)) = true.
Proof.
  unfold set_sample_with_mcmc, mode_legal, is_density_estimation. step.
  destruct use_mcmc, (String.eqb (_method_family st) "snpe") eqn:Hf;
    cbn; rewrite ?Hf; auto.
Qed.

(** A posterior that was constructed has a legal stored mode. *)
Lemma init_legal (family : string) (nn : Net) (pr : Prior) (use_mcmc : bool)
    (method : string) (params : option (gmap string Value)) (w : World C)
    (st : Posterior Net Prior) :
  result (__init__ family nn pr use_mcmc method params w) = Ok st ->
  mode_legal st = true.
Proof.
  unfold __init__, set_sample_with_mcmc, mode_legal, is_density_estimation,
    base_init.
  step. cbn.
  destruct use_mcmc, (String.eqb family "snpe") eqn:Hf; cbn;
    intros [= <-]; cbn; rewrite ?Hf; auto.
Qed.

(** ** [_log_prob_snpe] *)

Lemma fsub_fzero (m : Float) : fsub m fzero = m.
Proof.
  destruct m as [[a b]| | |]; cbn; try reflexivity.
  unfold Qminus, Qplus, Qopp. cbn.
  rewrite Z.mul_1_r, Z.add_0_r, Pos.mul_1_r. reflexivity.
Qed.

Lemma flog_probability (c : Float) :
  is_probability c = true -> exists q, flog ln c = Finite q.
Proof.
  destruct c as [q| | |]; cbn; try discriminate.
  destruct (0 ?= q)%Q; try discriminate. eauto.
Qed.

(** Outside the range (0, 1] the logarithm need not be finite: a factor of
    zero would turn a masked entry into [nan]. *)
Remark masked_entry_zero_factor (f : Q -> Q) :
  fsub NegInf (flog f (Finite 0)) = NaN.
Proof. reflexivity. Qed.

Lemma lookup_map {A B} (g : A -> B) (l : list A) (i : nat) :
  map g l !! i = g <$> l !! i.
Proof.
  revert i. induction l as [|a l IH]; intros [|i]; cbn; auto.
Qed.

(** Where the prior's log-density is not finite the masked entry is
    [-inf], whatever the estimator returned. *)
Lemma torch_where_masks (cond : list bool) (a : list Float) (i : nat) :
  length cond = length a ->
  cond !! i = Some false ->
  exists m, torch_where cond a NegInf = Ok m
            /\ length m = length a /\ m !! i = Some NegInf.
Proof.
  intros Hlen Hi. unfold torch_where.
  rewrite Hlen, Nat.eqb_refl. eexists. split; [reflexivity|].
  split.
  - rewrite length_map, length_combine. lia.
  - revert a i Hlen Hi.
    induction cond as [|c cond IH]; intros [|v a] [|i] Hlen Hi;
      cbn in *; try discriminate.
    + injection Hi as ->. reflexivity.
    + apply IH; [lia | exact Hi].
Qed.

Lemma log_prob_unnormalised_run (st : Posterior Net Prior) (w : World C)
    (theta x : Tensor) :
  _log_prob_snpe theta x false st w =
  mkOutcome
    (match masked_log_prob st theta x with
     | Ok m => Ok (map (fun v => fsub v fzero) m)
     | Raise e => Raise e
     end) st w.
Proof.
  unfold _log_prob_snpe, masked_log_prob. step.
  destruct (torch_where _ _ _); reflexivity.
Qed.

Lemma log_prob_normalised_run (st st' : Posterior Net Prior) (w w1 w' : World C)
    (theta x : Tensor) (m : list Float) (x0 : Ref) (c : Float) :
  masked_log_prob st theta x = Ok m ->
  batched_first_of_batch x st w = mkOutcome (Ok x0) st w1 ->
  leakage_correction x0 default_num_rejection_samples false false st w1 =
    mkOutcome (Ok (Some c)) st' w' ->
  _log_prob_snpe theta x true st w =
  mkOutcome (Ok (map (fun v => fsub v (flog ln c)) m)) st' w'.
Proof.
  unfold _log_prob_snpe, masked_log_prob. intros Hm Hx Hc. step.
  rewrite Hm. step. rewrite Hx. step. rewrite Hc. reflexivity.
Qed.

(** C9.  Without normalisation the call leaves the posterior (the cached
    correction factor included) and the world (generator and log of
    sampler calls) exactly as they were, and what is subtracted from the
    masked log-densities is the constant 0. *)
Theorem log_prob_unnormalised_skips_correction
    (st : Posterior Net Prior) (w : World C) (theta x : Tensor) :
  let o := _log_prob_snpe theta x false st w in
  post o = st
  /\ _leakage_density_correction_factor (post o) =
     _leakage_density_correction_factor st
  /\ world o = w
  /\ calls (world o) = calls w
  /\ result o =
     match masked_log_prob st theta x with
     | Ok m => Ok (map (fun v => fsub v (Finite 0)) m)
     | Raise e => Raise e
     end.
Proof.
  cbv zeta. rewrite log_prob_unnormalised_run. cbn [result post world].
  auto.
Qed.

(** With a context of the fixed shape the call returns a factor: the
    cached one or a fresh acceptance rate. *)
Lemma leakage_correction_returns
    (st : Posterior Net Prior) (w : World C) (x : Ref) (n : nat)
    (force show : bool) :
  has_context_shape st (deref x) = true ->
  exists c st' w',
    leakage_correction x n force show st w = mkOutcome (Ok (Some c)) st' w'
    /\ (_leakage_density_correction_factor st = Some c
        \/ exists y, c = acceptance_rate st w y n show).
Proof.
  intros Hshape.
  destruct (is_default st x) eqn:Hdef.
  - pose proof (is_new_x_default st w x Hdef) as Hnew.
    assert (exists d, default_x st = Some d) as [d Hd].
    { unfold is_default in Hdef.
      destruct (default_x st); [eauto|discriminate]. }
    destruct (_leakage_density_correction_factor st) as [c|] eqn:Hc;
      [destruct force|].
    + do 3 eexists. split; [|right; eauto].
      apply (leakage_correction_refresh st w x d); auto.
    + do 3 eexists. split; [|left; reflexivity].
      apply leakage_correction_cached; assumption.
    + do 3 eexists. split; [|right; eauto].
      apply (leakage_correction_refresh st w x d); auto.
  - do 3 eexists. split; [|right; eauto].
    apply leakage_correction_new, is_new_x_other; assumption.
Qed.

(** With samplers that keep their promise and a cached factor in range,
    that factor is a probability in (0, 1]. *)
Lemma leakage_correction_probability `{!Contracts C}
    (st : Posterior Net Prior) (w : World C) (x : Ref) (n : nat)
    (force show : bool) :
  factor_in_range st = true ->
  has_context_shape st (deref x) = true ->
  0 < n ->
  exists c st' w',
    leakage_correction x n force show st w = mkOutcome (Ok (Some c)) st' w'
    /\ is_probability c = true.
Proof.
  intros Hrange Hshape Hn.
  destruct (leakage_correction_returns st w x n force show Hshape)
    as (c & st' & w' & Hrun & Hc).
  exists c, st', w'. split; [exact Hrun|].
  destruct Hc as [Hc | [y ->]].
  - unfold factor_in_range in Hrange. rewrite Hc in Hrange. exact Hrange.
  - apply acceptance_is_probability, Hn.
Qed.

Lemma batched_first_of_batch_run (st : Posterior Net Prior) (w : World C)
    (x : Tensor) :
  is_context_batch st x = true ->
  exists x0 w1,
    batched_first_of_batch x st w = mkOutcome (Ok x0) st w1
    /\ calls w1 = calls w
    /\ has_context_shape st (deref x0) = true.
Proof.
  unfold is_context_batch, first_of_batch_shape, batched_first_of_batch,
    has_context_shape.
  destruct (tshape x) as [|k rest]; [discriminate|].
  intros Hs. do 2 eexists. split; [reflexivity|]. split; [reflexivity|].
  cbn. destruct (default_x st); [exact Hs | reflexivity].
Qed.

Lemma batched_first_of_batch_calls (st : Posterior Net Prior)
    (w w1 : World C) (x : Tensor) (x0 : Ref) :
  batched_first_of_batch x st w = mkOutcome (Ok x0) st w1 ->
  calls w1 = calls w.
Proof.
  unfold batched_first_of_batch. destruct (tshape x); [discriminate|].
  intros [= _ <-]. reflexivity.
Qed.

(** C2.  At every position of the batch where the prior's log-density is
    not finite, the returned log-probability is [-inf], normalised or not
    and whatever the estimator returned there.  (When normalising, the
    correction factor is in its range (0, 1] and the batch of contexts has
    the fixed context shape, so that the factor has a finite logarithm.) *)
Theorem log_prob_outside_support `{!Contracts C}
    (st : Posterior Net Prior) (w : World C) (theta x : Tensor)
    (norm_posterior : bool) (i : nat) (p : Float) :
  (norm_posterior = true ->
   factor_in_range st = true /\ is_context_batch st x = true) ->
  length (net_log_prob (net st) theta x) =
    length (prior_log_prob (_prior st) theta) ->
  prior_log_prob (_prior st) theta !! i = Some p ->
  isfinite p = false ->
  exists r,
    result (_log_prob_snpe theta x norm_posterior st w) = Ok r
    /\ length r = length (prior_log_prob (_prior st) theta)
    /\ r !! i = Some NegInf.
Proof.
  intros Hnorm Hlen Hp Hinf.
  destruct (torch_where_masks
              (map isfinite (prior_log_prob (_prior st) theta))
              (net_log_prob (net st) theta x) i) as (m & Hm & Hlm & Hmi).
  { rewrite length_map. symmetry. exact Hlen. }
  { rewrite lookup_map, Hp. cbn. rewrite Hinf. reflexivity. }
  destruct norm_posterior.
  - destruct (Hnorm eq_refl) as [Hrange Hbatch].
    destruct (batched_first_of_batch_run st w x Hbatch)
      as (x0 & w1 & Hx0 & _ & Hshape).
    destruct (leakage_correction_probability st w1 x0
                default_num_rejection_samples false false Hrange Hshape)
      as (c & st' & w' & Hc & Hprob).
    { unfold default_num_rejection_samples. lia. }
    rewrite (log_prob_normalised_run st st' w w1 w' theta x m x0 c Hm Hx0 Hc).
    cbn [result]. eexists. split; [reflexivity|].
    rewrite length_map, lookup_map, Hmi. cbn.
    destruct (flog_probability c Hprob) as [q ->]. split; [lia | reflexivity].
  - rewrite log_prob_unnormalised_run. fold (masked_log_prob st theta x) in Hm.
    rewrite Hm. cbn [result]. eexists. split; [reflexivity|].
    rewrite length_map, lookup_map, Hmi. split; [lia | reflexivity].
Qed.

(** C3.  Where the unnormalised call returns and the batch of contexts has
    the fixed context shape, the normalised call returns too, and its
    result is, entry by entry, the unnormalised one minus the logarithm of
    the correction factor that [leakage_correction] returns for the head of
    the batch of contexts; that one factor serves every entry, and at most
    one estimate is made. *)
Theorem log_prob_normalised_is_shifted
    (st : Posterior Net Prior) (w : World C) (theta x : Tensor)
    (r0 : list Float) :
  result (_log_prob_snpe theta x false st w) = Ok r0 ->
  is_context_batch st x = true ->
  let o := _log_prob_snpe theta x true st w in
  exists x0 w1 c,
    batched_first_of_batch x st w = mkOutcome (Ok x0) st w1
    /\ leakage_correction x0 default_num_rejection_samples false false st w1 =
       mkOutcome (Ok (Some c)) (post o) (world o)
    /\ result o = Ok (map (fun v => fsub v (flog ln c)) r0)
    /\ (forall i v, r0 !! i = Some v ->
         exists r, result o = Ok r /\ r !! i = Some (fsub v (flog ln c)))
    /\ length (calls (world o)) <= S (length (calls w)).
Proof.
  intros H0 Hbatch o.
  rewrite log_prob_unnormalised_run in H0. cbn [result] in H0.
  destruct (masked_log_prob st theta x) as [m|e] eqn:Hm; [|discriminate].
  injection H0 as <-.
  destruct (batched_first_of_batch_run st w x Hbatch)
    as (x0 & w1 & Hx0 & Hcalls & Hshape).
  destruct (leakage_correction_returns st w1 x0
              default_num_rejection_samples false false Hshape)
    as (c & st' & w' & Hc & _).
  exists x0, w1, c. subst o.
  rewrite (log_prob_normalised_run st st' w w1 w' theta x m x0 c Hm Hx0 Hc).
  cbn [result post world].
  assert (map (fun v => fsub v (flog ln c)) m =
          map (fun v => fsub v (flog ln c)) (map (fun v => fsub v fzero) m))
    as Heq.
  { rewrite map_map. apply map_ext. intros v. rewrite fsub_fzero.
    reflexivity. }
  split; [exact Hx0|]. split; [exact Hc|].
  split; [f_equal; exact Heq|].
  split.
  { intros i v Hi. eexists. split; [reflexivity|].
    rewrite Heq, lookup_map, Hi. reflexivity. }
  rewrite <- Hcalls.
  pose proof (leakage_correction_cases st w1 x0
                default_num_rejection_samples false false) as Hcases.
  cbv zeta in Hcases. rewrite Hc in Hcases.
  destruct Hcases as [[e He] | [He | [(c' & _ & He) | (d & _ & He)]]];
    try discriminate; injection He as _ _ ->; cbn [after_rejection calls];
    rewrite ?length_app; cbn; lia.
Qed.

(** ** [sample] *)

Lemma checked_context_frame (st : Posterior Net Prior) (w : World C)
    (x : option Tensor) :
  checked_context x st w = mkOutcome (result (checked_context x st w)) st w.
Proof.
  unfold checked_context, _x_else_default_x, _ensure_single_x,
    _ensure_x_consistent_with_default_x.
  destruct x as [x|]; step.
  2: destruct (default_x st) as [d|] eqn:Hd; step; [|reflexivity].
  all: match goal with
       | |- context [tshape (atleast_2d_float32_tensor ?t)] =>
           destruct (tshape (atleast_2d_float32_tensor t)) as [|[|[|k]] rest]
       end; step; try reflexivity.
  - destruct (default_x st) as [d|]; step; [|reflexivity].
    destruct (x_consistent_with_default _ _); reflexivity.
  - rewrite Hd. step. destruct (x_consistent_with_default _ _); reflexivity.
Qed.

Lemma sample_run_rejection (st : Posterior Net Prior) (w : World C)
    (shape : list nat) (x : option Tensor) (show : bool)
    (swm : option bool) (meth : option string)
    (params : option (gmap string Value)) (xr : Tensor) :
  result (checked_context x st w) = Ok xr ->
  or_else swm (_sample_with_mcmc st) = false ->
  sample shape x show swm meth params st w =
  mkOutcome
    (reshape_infer_last (rejection_samples st w xr (numel shape) show) shape)
    st (after_rejection st w xr (numel shape) show).
Proof.
  intros Hx Hmode. unfold sample. step.
  rewrite checked_context_frame, Hx. step. rewrite Hmode. step.
  unfold call_sample_posterior_within_prior, rejection_samples,
    after_rejection.
  destruct (sample_posterior_within_prior _ _ _ _ _ _) as [[t a] r].
  reflexivity.
Qed.

Lemma sample_run_mcmc (st : Posterior Net Prior) (w : World C)
    (shape : list nat) (x : option Tensor) (show : bool)
    (swm : option bool) (meth : option string)
    (params : option (gmap string Value)) (xr : Tensor) :
  result (checked_context x st w) = Ok xr ->
  or_else swm (_sample_with_mcmc st) = true ->
  let kw := or_else params (mcmc_parameters st) in
  let m := or_else meth (mcmc_method st) in
  clashes_with_keywords kw = false ->
  sample shape x show swm meth params st w =
  mkOutcome
    (match fst (_sample_posterior_mcmc st xr (numel shape) show m kw (rng w))
     with
     | Ok t => reshape_infer_last t shape
     | Raise e => Raise e
     end)
    st (after_mcmc st w xr (numel shape) show m kw).
Proof.
  intros Hx Hmode kw m Hclash. unfold sample. step.
  rewrite checked_context_frame, Hx. step. rewrite Hmode.
  unfold call_sample_posterior_mcmc. fold kw. rewrite Hclash.
  unfold after_mcmc. fold m.
  destruct (_sample_posterior_mcmc _ _ _ _ _ _ _) as [[t|e] r]; reflexivity.
Qed.

(** [sample] writes no attribute of the posterior, on any path. *)
Lemma sample_frame (st : Posterior Net Prior) (w : World C)
    (shape : list nat) (x : option Tensor) (show : bool)
    (swm : option bool) (meth : option string)
    (params : option (gmap string Value)) :
  post (sample shape x show swm meth params st w) = st.
Proof.
  destruct (result (checked_context x st w)) as [xr|e] eqn:Hx.
  - destruct (or_else swm (_sample_with_mcmc st)) eqn:Hmode.
    + destruct (clashes_with_keywords (or_else params (mcmc_parameters st)))
        eqn:Hclash.
      * unfold sample. step. rewrite checked_context_frame, Hx. step.
        rewrite Hmode. unfold call_sample_posterior_mcmc. rewrite Hclash.
        reflexivity.
      * rewrite (sample_run_mcmc st w shape x show swm meth params xr);
          auto.
    + rewrite (sample_run_rejection st w shape x show swm meth params xr);
        auto.
  - unfold sample. step. rewrite checked_context_frame, Hx. reflexivity.
Qed.

Lemma reshape_rows (t : Tensor) (lead : list nat) (d : nat) :
  tshape t = [numel lead; d] ->
  0 < numel lead ->
  reshape_infer_last t lead = Ok (mkTensor (lead ++ [d]) (tdata t)).
Proof.
  intros Hs Hk. unfold reshape_infer_last. rewrite Hs.
  assert (numel [numel lead; d] = d * numel lead) as ->.
  { cbn. lia. }
  destruct (Nat.eqb_spec (numel lead) 0) as [H0|_]; [lia|].
  rewrite Nat.Div0.mod_mul, Nat.div_mul by lia. reflexivity.
Qed.

Lemma reshape_empty (t : Tensor) (lead : list nat) :
  numel lead = 0 -> exists msg, reshape_infer_last t lead = Raise msg.
Proof.
  intros H0. unfold reshape_infer_last. rewrite H0. cbn. eauto.
Qed.

(** A request for no sample at all never returns: the last statement of
    [sample] cannot find the dimension it is asked to infer. *)
Lemma sample_empty_never_returns (st : Posterior Net Prior) (w : World C)
    (shape : list nat) (x : option Tensor) (show : bool)
    (swm : option bool) (meth : option string)
    (params : option (gmap string Value)) :
  numel shape = 0 ->
  exists e, result (sample shape x show swm meth params st w) = Raise e.
Proof.
  intros H0.
  destruct (result (checked_context x st w)) as [xr|e] eqn:Hx.
  - destruct (or_else swm (_sample_with_mcmc st)) eqn:Hmode.
    + destruct (clashes_with_keywords (or_else params (mcmc_parameters st)))
        eqn:Hclash.
      * unfold sample. step. rewrite checked_context_frame, Hx. step.
        rewrite Hmode. unfold call_sample_posterior_mcmc. rewrite Hclash.
        cbn. eauto.
      * rewrite (sample_run_mcmc st w shape x show swm meth params xr);
          auto.
        cbn [result]. destruct (fst _) as [t|e]; [|eauto].
        apply reshape_empty, H0.
    + rewrite (sample_run_rejection st w shape x show swm meth params xr);
        auto.
      cbn [result]. apply reshape_empty, H0.
  - unfold sample. step. rewrite checked_context_frame, Hx. cbn. eauto.
Qed.

(** C7 (as amended).  For a sample shape without a zero dimension and a
    context that passes the checks: the strategy in force is asked for
    exactly [numel sample_shape] draws, and what it hands back is returned
    with the shape [sample_shape ++ [theta_dim]], entries untouched; this
    reads the same for the rejection sampler and for the chain runner
    (where the chain runner accepts the configuration). *)
Theorem sample_draws_and_reshapes `{!Contracts C}
    (st : Posterior Net Prior) (w : World C)
    (shape : list nat) (x : option Tensor) (show : bool)
    (swm : option bool) (meth : option string)
    (params : option (gmap string Value)) (xr : Tensor) :
  0 < numel shape ->
  result (checked_context x st w) = Ok xr ->
  let o := sample shape x show swm meth params st w in
  let k := numel shape in
  if or_else swm (_sample_with_mcmc st) then
    let kw := or_else params (mcmc_parameters st) in
    let m := or_else meth (mcmc_method st) in
    forall t,
      clashes_with_keywords kw = false ->
      fst (_sample_posterior_mcmc st xr k show m kw (rng w)) = Ok t ->
      result o = Ok (mkTensor (shape ++ [theta_dim]) (tdata t))
      /\ length (tdata t) = k * theta_dim
      /\ calls (world o) = (calls w ++ [McmcCall xr k show m kw])%list
  else
    let t := rejection_samples st w xr k show in
    result o = Ok (mkTensor (shape ++ [theta_dim]) (tdata t))
    /\ length (tdata t) = k * theta_dim
    /\ calls (world o) = (calls w ++ [RejectionCall xr k show])%list.
Proof.
  intros Hk Hx o k. subst o k.
  destruct (or_else swm (_sample_with_mcmc st)) eqn:Hmode.
  - intros kw m t Hclash Ht.
    rewrite (sample_run_mcmc st w shape x show swm meth params xr Hx Hmode
               Hclash).
    cbn [result world]. fold kw m. rewrite Ht.
    destruct (mcmc_shape _ _ _ _ _ _ _ _ Ht) as [Hs Hl].
    rewrite (reshape_rows t shape theta_dim Hs Hk). auto.
  - intros t.
    rewrite (sample_run_rejection st w shape x show swm meth params xr Hx
               Hmode).
    cbn [result world].
    destruct (rejection_shape (net st) (_prior st) xr (numel shape) show
                (rng w)) as [Hs Hl].
    fold (rejection_samples st w xr (numel shape) show) in Hs, Hl.
    rewrite (reshape_rows _ shape theta_dim Hs Hk). auto.
Qed.

(** C10.  [sample] leaves the posterior as it found it, overrides or not:
    the stored sampling mode, MCMC method and MCMC parameters are those of
    before the call, and a later call without overrides does what it would
    have done on the posterior of before. *)
Theorem sample_keeps_configuration
    (st : Posterior Net Prior) (w : World C)
    (shape : list nat) (x : option Tensor) (show : bool)
    (swm : option bool) (meth : option string)
    (params : option (gmap string Value)) :
  let o := sample shape x show swm meth params st w in
  post o = st
  /\ _sample_with_mcmc (post o) = _sample_with_mcmc st
  /\ mcmc_method (post o) = mcmc_method st
  /\ mcmc_parameters (post o) = mcmc_parameters st
  /\ (forall shape' x' show' w',
        sample shape' x' show' None None None (post o) w' =
        sample shape' x' show' None None None st w')
  /\ (forall shape' xr' w',
        result (checked_context None st w') = Ok xr' ->
        clashes_with_keywords (mcmc_parameters st) = false ->
        calls (world (sample shape' None false None None None (post o) w')) =
        (calls w' ++
           [if _sample_with_mcmc st
            then McmcCall xr' (numel shape') false (mcmc_method st)
                   (mcmc_parameters st)
            else RejectionCall xr' (numel shape') false])%list).
Proof.
  cbv zeta. rewrite sample_frame. repeat split; try reflexivity.
  intros shape' xr' w' Hx Hclash.
  destruct (_sample_with_mcmc st) eqn:Hmode.
  - rewrite (sample_run_mcmc st w' shape' None false None None None xr');
      auto.
  - rewrite (sample_run_rejection st w' shape' None false None None None xr');
      auto.
Qed.

(** The override of the sampling mode is not checked against the method
    family: with [sample_with_mcmc=False] the rejection sampler is called,
    whatever the family and whatever the stored mode. *)
Lemma sample_override_reaches_rejection
    (st : Posterior Net Prior) (w : World C)
    (shape : list nat) (x : option Tensor) (show : bool)
    (meth : option string) (params : option (gmap string Value))
    (xr : Tensor) :
  result (checked_context x st w) = Ok xr ->
  calls (world (sample shape x show (Some false) meth params st w)) =
  (calls w ++ [RejectionCall xr (numel shape) show])%list.
Proof.
  intros Hx.
  rewrite (sample_run_rejection st w shape x show (Some false) meth params
             xr Hx eq_refl).
  reflexivity.
Qed.

(** Without that override, a posterior of another family whose stored mode
    is legal never calls the rejection sampler from [sample]. *)
Lemma sample_stored_mode_no_rejection
    (st : Posterior Net Prior) (w : World C)
    (shape : list nat) (x : option Tensor) (show : bool)
    (meth : option string) (params : option (gmap string Value)) :
  mode_legal st = true ->
  is_density_estimation st = false ->
  existsb is_rejection_call (calls w) = false ->
  existsb is_rejection_call
    (calls (world (sample shape x show None meth params st w))) = false.
Proof.
  unfold mode_legal. intros Hlegal Hfam Hlog. rewrite Hfam in Hlegal.
  cbn in Hlegal.
  destruct (result (checked_context x st w)) as [xr|e] eqn:Hx.
  - destruct (clashes_with_keywords (or_else params (mcmc_parameters st)))
      eqn:Hclash.
    + unfold sample. step. rewrite checked_context_frame, Hx. step.
      rewrite Hlegal. cbn [or_else].
      unfold call_sample_posterior_mcmc. rewrite Hclash. exact Hlog.
    + rewrite (sample_run_mcmc st w shape x show None meth params xr);
        auto.
      cbn [world after_mcmc calls]. rewrite existsb_app, Hlog. reflexivity.
  - unfold sample. step. rewrite checked_context_frame, Hx. exact Hlog.
Qed.

(** C6 (as amended).  The dictionary handed to the chain runner is the
    per-call [mcmc_parameters] as a whole when one is given, and the stored
    one otherwise; the two are never mixed.  Bound against the keyword
    defaults of the chain runner, a key of that dictionary replaces the
    default, every other key keeps its default, and binding twice changes
    nothing. *)
Theorem mcmc_parameters_passed_whole
    (st : Posterior Net Prior) (w : World C)
    (shape : list nat) (x : option Tensor) (show : bool)
    (swm : option bool) (meth : option string)
    (params : option (gmap string Value)) (xr : Tensor) :
  result (checked_context x st w) = Ok xr ->
  or_else swm (_sample_with_mcmc st) = true ->
  clashes_with_keywords (or_else params (mcmc_parameters st)) = false ->
  let o := sample shape x show swm meth params st w in
  let kw := or_else params (mcmc_parameters st) in
  passed_kwargs (calls (world o)) = Some kw
  /\ (forall given, params = Some given -> kw = given)
  /\ (params = None -> kw = mcmc_parameters st)
  /\ (forall (defaults : gmap string Value) (key : string),
        (is_Some (kw !! key) -> merge defaults kw !! key = kw !! key)
        /\ (kw !! key = None -> merge defaults kw !! key = defaults !! key)
        /\ merge (merge defaults kw) kw = merge defaults kw).
Proof.
  intros Hx Hmode Hclash o kw. subst o.
  rewrite (sample_run_mcmc st w shape x show swm meth params xr Hx Hmode
             Hclash).
  cbn [world after_mcmc calls]. split.
  { unfold passed_kwargs. rewrite last_snoc. reflexivity. }
  split; [intros given ->; reflexivity|].
  split; [intros ->; reflexivity|].
  intros defaults key. unfold merge. repeat split.
  - intros [v Hv]. rewrite lookup_union, Hv.
    destruct (defaults !! key); reflexivity.
  - intros Hn. rewrite lookup_union, Hn.
    destruct (defaults !! key); reflexivity.
  - apply map_eq. intros j. rewrite !lookup_union.
    destruct (kw !! j), (defaults !! j); reflexivity.
Qed.

(** * Further properties of the methods *)

(** ** The sampling mode *)

Lemma set_sample_with_mcmc_run (st : Posterior Net Prior) (w : World C)
    (use_mcmc : bool) :
  set_sample_with_mcmc use_mcmc st w =
  if negb use_mcmc && negb (is_density_estimation st) then
    mkOutcome
      (Raise (ValueError (_method_family st
                          ++ " cannot use MCMC for sampling."))) st w
  else
    mkOutcome (Ok (with_sample_with_mcmc use_mcmc st))
      (with_sample_with_mcmc use_mcmc st) w.
Proof.
  unfold set_sample_with_mcmc, is_density_estimation. step.
  destruct use_mcmc, (String.eqb (_method_family st) "snpe"); reflexivity.
Qed.

(** X1.  Two calls of [set_sample_with_mcmc] in a row.  Whether the second
    is refused depends on the method family alone, not on the first.  When
    it is accepted it decides: the outcome is the one it would have had
    without the first call.  When it is refused, what the first call left
    behind stands. *)
Theorem set_sample_with_mcmc_twice
    (st : Posterior Net Prior) (w : World C) (first second : bool) :
  let o := set_sample_with_mcmc first st w in
  let o' := set_sample_with_mcmc second (post o) (world o) in
  if negb second && negb (is_density_estimation st) then
    result o' =
      Raise (ValueError (_method_family st ++ " cannot use MCMC for sampling."))
    /\ post o' = post o
    /\ world o' = w
  else o' = set_sample_with_mcmc second st w.
Proof.
  cbv zeta. rewrite (set_sample_with_mcmc_run st w first).
  rewrite (set_sample_with_mcmc_run st w second).
  destruct (negb first && negb (is_density_estimation st));
    cbn [post world]; rewrite set_sample_with_mcmc_run;
    unfold is_density_estimation;
    cbn [with_sample_with_mcmc _method_family];
    destruct (negb second && negb (String.eqb (_method_family st) "snpe"));
    auto.
Qed.

(** X2.  Assigning the property [sample_with_mcmc] and reading it back:
    the assignment is refused exactly when it turns MCMC off for a family
    other than the density-estimation family, and then the property still
    reads as before; in every other case it reads as the value assigned. *)
Theorem sample_with_mcmc_assign_then_read
    (st : Posterior Net Prior) (w : World C) (value : bool) :
  let o := sample_with_mcmc_setter value st w in
  let refused := negb value && negb (is_density_estimation st) in
  result o =
    (if refused
     then Raise (ValueError (_method_family st
                             ++ " cannot use MCMC for sampling."))
     else Ok tt)
  /\ result (sample_with_mcmc_getter (post o) (world o)) =
     Ok (if refused then _sample_with_mcmc st else value)
  /\ world o = w.
Proof.
  cbv zeta. unfold sample_with_mcmc_setter, sample_with_mcmc_getter. step.
  rewrite set_sample_with_mcmc_run.
  destruct (negb value && negb (is_density_estimation st)); cbn; auto.
Qed.

(** X13.  The constructor hands the requested mode to
    [set_sample_with_mcmc]: constructing a posterior of a family other than
    the density-estimation family with [sample_with_mcmc=False] raises, and
    every other construction yields a posterior that stores the requested
    mode and whose stored mode is legal for its family. *)
Theorem init_checks_family (family : string) (nn : Net) (pr : Prior)
    (use_mcmc : bool) (method : string)
    (params : option (gmap string Value)) (w : World C) :
  let o := __init__ family nn pr use_mcmc method params w in
  if negb use_mcmc && negb (String.eqb family "snpe") then
    result o = Raise (ValueError (family ++ " cannot use MCMC for sampling."))
  else
    exists st,
      result o = Ok st
      /\ _method_family st = family
      /\ _sample_with_mcmc st = use_mcmc
      /\ mode_legal st = true
      /\ world o = w.
Proof.
  cbv zeta. unfold __init__. rewrite set_sample_with_mcmc_run.
  unfold is_density_estimation, mode_legal, is_density_estimation, base_init.
  cbn [_method_family].
  destruct use_mcmc, (String.eqb family "snpe") eqn:Hf; cbn;
    try reflexivity; eexists; (split; [reflexivity|]); cbn; rewrite ?Hf;
    auto.
Qed.

(** ** The footprint of [leakage_correction] *)

Lemma leakage_correction_post (st : Posterior Net Prior) (w : World C)
    (x : Ref) (n : nat) (force show : bool) :
  let o := leakage_correction x n force show st w in
  post o = st \/ exists a, post o = with_correction_factor (Some a) st.
Proof.
  destruct (leakage_correction_cases st w x n force show)
    as [[e He] | [He | [(c & _ & He) | (d & _ & He)]]];
    cbv zeta in *; rewrite He; cbn [post]; eauto.
Qed.

(** X5.  Whatever the arguments, [leakage_correction] writes at most the
    cached factor and calls the rejection sampler at most once, for
    [num_rejection_samples] samples; when it raises it has written nothing
    and sampled nothing. *)
Theorem leakage_correction_footprint
    (st : Posterior Net Prior) (w : World C) (x : Ref) (n : nat)
    (force show : bool) :
  let o := leakage_correction x n force show st w in
  (post o = st \/ exists a, post o = with_correction_factor (Some a) st)
  /\ (calls (world o) = calls w
      \/ exists y, calls (world o) = (calls w ++ [RejectionCall y n show])%list)
  /\ next_addr (world o) = next_addr w
  /\ (forall e, result o = Raise e -> post o = st /\ world o = w).
Proof.
  destruct (leakage_correction_cases st w x n force show)
    as [[e He] | [He | [(c & _ & He) | (d & _ & He)]]];
    cbv zeta in *; rewrite He;
    cbn [result post world after_rejection calls next_addr];
    (split; [eauto | split; [eauto | split; [reflexivity|]]]);
    intros e' Hr; (discriminate Hr || auto).
Qed.

(** X6.  The cached factor is only ever replaced by an estimate taken at
    the stored default context: after any call the cache is what it was, or
    it holds the acceptance rate of the one sampler call the method made,
    and that call was made at the default context. *)
Theorem correction_factor_written_at_default
    (st : Posterior Net Prior) (w : World C) (x : Ref) (n : nat)
    (force show : bool) :
  let o := leakage_correction x n force show st w in
  _leakage_density_correction_factor (post o) =
    _leakage_density_correction_factor st
  \/ exists d,
       default_x st = Some d
       /\ _leakage_density_correction_factor (post o) =
          Some (acceptance_rate st w (deref d) n show)
       /\ result o = Ok (Some (acceptance_rate st w (deref d) n show))
       /\ calls (world o) = (calls w ++ [RejectionCall (deref d) n show])%list.
Proof.
  destruct (leakage_correction_cases st w x n force show)
    as [[e He] | [He | [(c & _ & He) | (d & Hd & He)]]];
    cbv zeta in *; rewrite He; cbn [result post world]; auto.
  right. exists d. cbn. auto.
Qed.

(** X7.  Which tensor object carries the default observation does not
    matter: two contexts that are both recognised as the default get the
    same answer, the same cache and the same sampler call. *)
Theorem leakage_correction_object_irrelevant
    (st : Posterior Net Prior) (w : World C) (x x' : Ref) (n : nat)
    (force show : bool) :
  is_default st x = true ->
  is_default st x' = true ->
  leakage_correction x n force show st w =
  leakage_correction x' n force show st w.
Proof.
  intros Hx Hx'.
  pose proof (is_new_x_default st w x Hx) as Hnew.
  pose proof (is_new_x_default st w x' Hx') as Hnew'.
  assert (exists d, default_x st = Some d) as [d Hd].
  { unfold is_default in Hx. destruct (default_x st); [eauto|discriminate]. }
  destruct (_leakage_density_correction_factor st) as [c|] eqn:Hc;
    [destruct force|].
  - rewrite (leakage_correction_refresh st w x d n true show Hnew Hd),
      (leakage_correction_refresh st w x' d n true show Hnew' Hd); auto.
  - rewrite (leakage_correction_cached st w x n show c Hnew Hc),
      (leakage_correction_cached st w x' n show c Hnew' Hc). reflexivity.
  - rewrite (leakage_correction_refresh st w x d n force show Hnew Hd),
      (leakage_correction_refresh st w x' d n force show Hnew' Hd); auto.
Qed.

(** ** [_log_prob_snpe], entry by entry and call after call *)

(** Where the prior's log-density is finite the masked entry is the
    estimator's. *)
Lemma torch_where_keeps (cond : list bool) (a : list Float) (other v : Float)
    (i : nat) :
  length cond = length a ->
  cond !! i = Some true ->
  a !! i = Some v ->
  exists m, torch_where cond a other = Ok m /\ m !! i = Some v.
Proof.
  intros Hlen Hi Hv. unfold torch_where.
  rewrite Hlen, Nat.eqb_refl. eexists. split; [reflexivity|].
  revert a i Hlen Hi Hv.
  induction cond as [|c cond IH]; intros [|u a] [|i] Hlen Hi Hv;
    cbn in *; try discriminate.
  - injection Hi as ->. exact Hv.
  - apply IH; [lia | exact Hi | exact Hv].
Qed.

Lemma batched_first_of_batch_value (st : Posterior Net Prior) (w : World C)
    (x t : Tensor) :
  first_of_batch x = Some t ->
  batched_first_of_batch x st w =
  mkOutcome (Ok (mkRef (next_addr w) t)) st
    (mkWorld (rng w) (S (next_addr w)) (calls w)).
Proof.
  unfold first_of_batch, batched_first_of_batch.
  destruct (tshape x); [discriminate|]. intros [= <-]. reflexivity.
Qed.

(** The normalised call, step by step. *)
Lemma log_prob_normalised_steps (st : Posterior Net Prior) (w : World C)
    (theta x : Tensor) :
  _log_prob_snpe theta x true st w =
  match masked_log_prob st theta x with
  | Raise e => mkOutcome (Raise e) st w
  | Ok m =>
      let o0 := batched_first_of_batch x st w in
      match result o0 with
      | Raise e => mkOutcome (Raise e) st w
      | Ok x0 =>
          let o := leakage_correction x0 default_num_rejection_samples
                     false false st (world o0) in
          mkOutcome
            (match result o with
             | Ok (Some c) => Ok (map (fun v => fsub v (flog ln c)) m)
             | Ok None => Raise (TypeError "log of None")
             | Raise e => Raise e
             end) (post o) (world o)
      end
  end.
Proof.
  unfold _log_prob_snpe, masked_log_prob. step.
  destruct (torch_where _ _ _) as [m|e]; [|reflexivity]. step.
  unfold batched_first_of_batch.
  destruct (tshape x) as [|k rest]; cbn [result post world];
    [reflexivity|].
  destruct (leakage_correction _ _ _ _ _ _) as [[[c|]|e] st' w'];
    reflexivity.
Qed.

(** X8.  Inside the prior support the unnormalised log-probability is the
    estimator's log-density itself: at every position of the batch where
    the prior's log-density is finite, what [_log_prob_snpe] returns without
    normalisation is what the estimator returned there. *)
Theorem log_prob_inside_support
    (st : Posterior Net Prior) (w : World C) (theta x : Tensor)
    (i : nat) (p v : Float) :
  length (net_log_prob (net st) theta x) =
    length (prior_log_prob (_prior st) theta) ->
  prior_log_prob (_prior st) theta !! i = Some p ->
  isfinite p = true ->
  net_log_prob (net st) theta x !! i = Some v ->
  exists r,
    result (_log_prob_snpe theta x false st w) = Ok r
    /\ r !! i = Some v.
Proof.
  intros Hlen Hp Hfin Hv.
  destruct (torch_where_keeps
              (map isfinite (prior_log_prob (_prior st) theta))
              (net_log_prob (net st) theta x) NegInf v i) as (m & Hm & Hmi).
  { rewrite length_map. symmetry. exact Hlen. }
  { rewrite lookup_map, Hp. cbn. rewrite Hfin. reflexivity. }
  { exact Hv. }
  rewrite log_prob_unnormalised_run. fold (masked_log_prob st theta x) in Hm.
  rewrite Hm. cbn [result]. eexists. split; [reflexivity|].
  rewrite lookup_map, Hmi. cbn. rewrite fsub_fzero. reflexivity.
Qed.

(** X9.  Normalised log-probabilities at the default context are amortised:
    when the head of the batch of contexts equals the stored default in
    value, a first normalised call makes at most one estimate and leaves a
    cached factor, and a second normalised call (for other parameters, at
    the same contexts) uses that same factor, makes no sampler call and
    changes nothing. *)
Theorem log_prob_repeated_single_estimate
    (st : Posterior Net Prior) (w : World C) (theta theta' x t : Tensor)
    (d : Ref) (m m' : list Float) :
  first_of_batch x = Some t ->
  default_x st = Some d ->
  value_equal t (deref d) = true ->
  masked_log_prob st theta x = Ok m ->
  masked_log_prob st theta' x = Ok m' ->
  let o := _log_prob_snpe theta x true st w in
  let o' := _log_prob_snpe theta' x true (post o) (world o) in
  exists c,
    result o = Ok (map (fun v => fsub v (flog ln c)) m)
    /\ _leakage_density_correction_factor (post o) = Some c
    /\ length (calls (world o)) <= S (length (calls w))
    /\ result o' = Ok (map (fun v => fsub v (flog ln c)) m')
    /\ post o' = post o
    /\ calls (world o') = calls (world o).
Proof.
  intros Hx Hd Hv Hm Hm' o o'.
  assert (forall (st1 : Posterior Net Prior) (a : nat),
            default_x st1 = Some d ->
            is_default st1 (mkRef a t) = true) as Hdef.
  { intros st1 a Hd1. unfold is_default. rewrite Hd1. cbn [deref].
    rewrite Hv. apply orb_true_r. }
  assert (exists c st1 w1,
            o = mkOutcome (Ok (map (fun v => fsub v (flog ln c)) m)) st1 w1
            /\ _leakage_density_correction_factor st1 = Some c
            /\ default_x st1 = Some d
            /\ masked_log_prob st1 theta' x = Ok m'
            /\ length (calls w1) <= S (length (calls w)))
    as (c & st1 & w1 & Ho & Hc1 & Hd1 & Hm1 & Hlen).
  { subst o o'. rewrite log_prob_normalised_steps, Hm.
    rewrite (batched_first_of_batch_value st w x t Hx).
    cbv zeta. cbn [result world].
    set (x0 := mkRef (next_addr w) t).
    set (w0 := mkWorld (rng w) (S (next_addr w)) (calls w)).
    pose proof (is_new_x_default st w0 x0 (Hdef st _ Hd)) as Hnew.
    destruct (_leakage_density_correction_factor st) as [c|] eqn:Hc.
    - rewrite (leakage_correction_cached st w0 x0 _ false c Hnew Hc).
      cbn [result post world]. exists c, st, w0.
      repeat split; auto; subst w0; cbn; lia.
    - rewrite (leakage_correction_refresh st w0 x0 d _ false false Hnew Hd)
        by auto.
      cbn [result post world]. do 3 eexists.
      repeat split; auto; subst w0; cbn; rewrite length_app; cbn; lia. }
  exists c. subst o'. rewrite Ho. cbn [result post world].
  rewrite log_prob_normalised_steps, Hm1.
  rewrite (batched_first_of_batch_value st1 w1 x t Hx).
  cbv zeta. cbn [result world].
  rewrite (leakage_correction_cached st1 _ _ _ false c
             (is_new_x_default st1 _ _ (Hdef st1 _ Hd1)) Hc1).
  cbn [result post world calls]. auto 10.
Qed.

(** ** [sample]: what is called, and when *)

(** [sample] on each of its paths. *)
Lemma sample_paths (st : Posterior Net Prior) (w : World C)
    (shape : list nat) (x : option Tensor) (show : bool)
    (swm : option bool) (meth : option string)
    (params : option (gmap string Value)) :
  let kw := or_else params (mcmc_parameters st) in
  let m := or_else meth (mcmc_method st) in
  let k := numel shape in
  sample shape x show swm meth params st w =
  match result (checked_context x st w) with
  | Raise e => mkOutcome (Raise e) st w
  | Ok xr =>
      if or_else swm (_sample_with_mcmc st) then
        if clashes_with_keywords kw then
          mkOutcome
            (Raise (TypeError "got multiple values for keyword argument"))
            st w
        else
          mkOutcome
            (match fst (_sample_posterior_mcmc st xr k show m kw (rng w)) with
             | Ok t => reshape_infer_last t shape
             | Raise e => Raise e
             end)
            st (after_mcmc st w xr k show m kw)
      else
        mkOutcome (reshape_infer_last (rejection_samples st w xr k show) shape)
          st (after_rejection st w xr k show)
  end.
Proof.
  cbv zeta.
  destruct (result (checked_context x st w)) as [xr|e] eqn:Hx.
  - destruct (or_else swm (_sample_with_mcmc st)) eqn:Hmode.
    + destruct (clashes_with_keywords (or_else params (mcmc_parameters st)))
        eqn:Hclash.
      * unfold sample. step. rewrite checked_context_frame, Hx. step.
        rewrite Hmode. unfold call_sample_posterior_mcmc. rewrite Hclash.
        reflexivity.
      * apply sample_run_mcmc; assumption.
    + apply sample_run_rejection; assumption.
  - unfold sample. step. rewrite checked_context_frame, Hx. reflexivity.
Qed.

(** X10.  A dictionary of MCMC parameters that holds one of the keywords
    [sample] passes by name ([x], [num_samples], [show_progress_bars],
    [mcmc_method]) makes an MCMC call of [sample] raise [TypeError], before
    the chain runner is called and without touching the posterior. *)
Theorem sample_keyword_clash
    (st : Posterior Net Prior) (w : World C)
    (shape : list nat) (x : option Tensor) (show : bool)
    (swm : option bool) (meth : option string)
    (params : option (gmap string Value)) (xr : Tensor) (key : string) :
  result (checked_context x st w) = Ok xr ->
  or_else swm (_sample_with_mcmc st) = true ->
  key ∈ explicit_keywords ->
  is_Some (or_else params (mcmc_parameters st) !! key) ->
  sample shape x show swm meth params st w =
  mkOutcome (Raise (TypeError "got multiple values for keyword argument"))
    st w.
Proof.
  intros Hx Hmode Hkey Hin.
  pose proof (sample_paths st w shape x show swm meth params) as Hrun.
  cbv zeta in Hrun. rewrite Hrun, Hx, Hmode.
  assert (clashes_with_keywords (or_else params (mcmc_parameters st)) = true)
    as ->; [|reflexivity].
  unfold clashes_with_keywords. apply existsb_exists. exists key.
  split; [apply list_elem_of_In, Hkey | apply bool_decide_eq_true, Hin].
Qed.

(** X11.  Under rejection sampling the MCMC settings play no part: with
    the rejection strategy in force, a call of [sample] does the same
    whatever [mcmc_method] and [mcmc_parameters] it is given, a clashing
    dictionary included. *)
Theorem sample_rejection_ignores_mcmc_settings
    (st : Posterior Net Prior) (w : World C)
    (shape : list nat) (x : option Tensor) (show : bool)
    (swm : option bool) (meth meth' : option string)
    (params params' : option (gmap string Value)) :
  or_else swm (_sample_with_mcmc st) = false ->
  sample shape x show swm meth params st w =
  sample shape x show swm meth' params' st w.
Proof.
  intros Hmode.
  pose proof (sample_paths st w shape x show swm meth params) as Hrun.
  pose proof (sample_paths st w shape x show swm meth' params') as Hrun'.
  cbv zeta in Hrun, Hrun'. rewrite Hrun, Hrun', Hmode. reflexivity.
Qed.

(** X12.  [sample] checks before it samples and samples once: when a check
    of the context fails, the call raises that error and no sampler is
    called; otherwise at most one sampler is called, the one of the strategy
    in force, for [numel sample_shape] samples. *)
Theorem sample_single_sampler_call
    (st : Posterior Net Prior) (w : World C)
    (shape : list nat) (x : option Tensor) (show : bool)
    (swm : option bool) (meth : option string)
    (params : option (gmap string Value)) :
  let o := sample shape x show swm meth params st w in
  (forall e, result (checked_context x st w) = Raise e ->
     result o = Raise e /\ world o = w)
  /\ (world o = w
      \/ exists ev,
           calls (world o) = (calls w ++ [ev])%list
           /\ is_rejection_call ev = negb (or_else swm (_sample_with_mcmc st))
           /\ event_num_samples ev = numel shape).
Proof.
  pose proof (sample_paths st w shape x show swm meth params) as Hrun.
  cbv zeta in *. rewrite Hrun. split.
  - intros e He. rewrite He. auto.
  - destruct (result (checked_context x st w)) as [xr|e]; [|auto].
    destruct (or_else swm (_sample_with_mcmc st)).
    + destruct (clashes_with_keywords _); [auto|].
      right. eexists. cbn. eauto.
    + right. eexists. cbn. eauto.
Qed.

(** ** Invariants of a posterior in use *)

Lemma log_prob_post (st : Posterior Net Prior) (w : World C)
    (theta x : Tensor) (norm : bool) :
  let o := _log_prob_snpe theta x norm st w in
  (post o = st \/ exists a, post o = with_correction_factor (Some a) st)
  /\ (norm = false -> post o = st).
Proof.
  destruct norm; cbv zeta.
  - split; [|discriminate].
    rewrite log_prob_normalised_steps.
    destruct (masked_log_prob st theta x) as [m|e]; [|auto].
    cbv zeta. destruct (batched_first_of_batch x st w) as [[x0|e] st0 w0];
      cbn [result post world]; [|auto].
    exact (leakage_correction_post st w0 x0 default_num_rejection_samples
             false false).
  - rewrite log_prob_unnormalised_run. auto.
Qed.

(** One call: the attributes it leaves alone. *)
Lemma call_method_footprint (c : Call) (st : Posterior Net Prior)
    (w : World C) :
  let st' := fst (call_method c st w) in
  exists (b : bool) (f : option Float),
    st' = with_sample_with_mcmc b (with_correction_factor f st)
    /\ (writes_mode c = false -> b = _sample_with_mcmc st)
    /\ (writes_factor c = false ->
        f = _leakage_density_correction_factor st).
Proof.
  assert (forall b f,
            b = _sample_with_mcmc st ->
            f = _leakage_density_correction_factor st ->
            st = with_sample_with_mcmc b (with_correction_factor f st))
    as Hsame.
  { intros b f -> ->. destruct st; reflexivity. }
  assert (forall a,
            with_correction_factor (Some a) st =
            with_sample_with_mcmc (_sample_with_mcmc st)
              (with_correction_factor (Some a) st)) as Hfac.
  { intros a. reflexivity. }
  assert (forall b,
            with_sample_with_mcmc b st =
            with_sample_with_mcmc b
              (with_correction_factor
                 (_leakage_density_correction_factor st) st)) as Hmod.
  { intros b. reflexivity. }
  destruct c as [b | b | x n force show | theta x norm
                 | shape x show swm meth params];
    cbn [call_method fst writes_mode writes_factor].
  - rewrite set_sample_with_mcmc_run.
    destruct (negb b && negb (is_density_estimation st)); cbn [post].
    + do 2 eexists. split; [apply Hsame; reflexivity|]. auto.
    + do 2 eexists. split; [apply Hmod|]. split; [discriminate | auto].
  - unfold sample_with_mcmc_setter. step. rewrite set_sample_with_mcmc_run.
    destruct (negb b && negb (is_density_estimation st)); cbn [result post].
    + do 2 eexists. split; [apply Hsame; reflexivity|]. auto.
    + do 2 eexists. split; [apply Hmod|]. split; [discriminate | auto].
  - destruct (leakage_correction_post st w x n force show)
      as [-> | [a ->]].
    + do 2 eexists. split; [apply Hsame; reflexivity|]. auto.
    + do 2 eexists. split; [apply Hfac|]. split; [auto | discriminate].
  - destruct (log_prob_post st w theta x norm) as ([Hp | [a Hp]] & Hn).
    + rewrite Hp. do 2 eexists. split; [apply Hsame; reflexivity|]. auto.
    + rewrite Hp. exists (_sample_with_mcmc st).
      destruct norm.
      * eexists. split; [apply Hfac|]. split; [auto | discriminate].
      * exists (_leakage_density_correction_factor st).
        rewrite <- Hp, (Hn eq_refl). split; [apply Hsame; reflexivity|].
        auto.
  - rewrite sample_frame.
    do 2 eexists. split; [apply Hsame; reflexivity|]. auto.
Qed.

(** X3.  Through any sequence of method calls the posterior keeps its
    method family, its estimator, its prior, its default context, its MCMC
    method and its MCMC parameters.  The sampling mode changes only through
    [set_sample_with_mcmc] or the property assignment, and the cached
    correction factor only through [leakage_correction] or a normalised
    [_log_prob_snpe]. *)
Theorem methods_keep_attributes (cs : list Call)
    (st : Posterior Net Prior) (w : World C) :
  let st' := fst (call_methods cs st w) in
  _method_family st' = _method_family st
  /\ net st' = net st
  /\ _prior st' = _prior st
  /\ default_x st' = default_x st
  /\ mcmc_method st' = mcmc_method st
  /\ mcmc_parameters st' = mcmc_parameters st
  /\ (forallb (fun c => negb (writes_mode c)) cs = true ->
      _sample_with_mcmc st' = _sample_with_mcmc st)
  /\ (forallb (fun c => negb (writes_factor c)) cs = true ->
      _leakage_density_correction_factor st' =
      _leakage_density_correction_factor st).
Proof.
  revert st w. induction cs as [|c cs IH]; intros st w.
  - cbn. auto 10.
  - cbn [call_methods forallb].
    destruct (call_method_footprint c st w) as (b & f & Hst & Hb & Hf).
    cbv zeta in Hst.
    specialize (IH (fst (call_method c st w)) (snd (call_method c st w))).
    cbv zeta in IH |- *.
    set (st1 := fst (call_method c st w)) in *.
    destruct IH as (H1 & H2 & H3 & H4 & H5 & H6 & H7 & H8).
    rewrite H1, H2, H3, H4, H5, H6.
    repeat split; try (rewrite Hst; reflexivity).
    + intros Hall. apply andb_true_iff in Hall as [Hc Hall].
      rewrite (H7 Hall), Hst. cbn. apply Hb.
      apply negb_true_iff, Hc.
    + intros Hall. apply andb_true_iff in Hall as [Hc Hall].
      rewrite (H8 Hall), Hst. cbn. apply Hf.
      apply negb_true_iff, Hc.
Qed.

Lemma call_methods_family (cs : list Call) (st : Posterior Net Prior)
    (w : World C) :
  _method_family (fst (call_methods cs st w)) = _method_family st.
Proof.
  revert st w. induction cs as [|c cs IH]; intros st w; [reflexivity|].
  cbn [call_methods]. rewrite IH.
  destruct (call_method_footprint c st w) as (b & f & Hst & _).
  cbv zeta in Hst. rewrite Hst. reflexivity.
Qed.

Lemma call_method_legal (c : Call) (st : Posterior Net Prior) (w : World C) :
  mode_legal st = true -> mode_legal (fst (call_method c st w)) = true.
Proof.
  intros Hlegal.
  destruct (call_method_footprint c st w) as (b & f & Hst & Hb & _).
  cbv zeta in Hst.
  destruct c as [b' | b' | x n force show | theta x norm
                 | shape x show swm meth params];
    try (rewrite Hst, (Hb eq_refl); exact Hlegal).
  - apply set_sample_with_mcmc_legal, Hlegal.
  - cbn [call_method fst]. unfold sample_with_mcmc_setter. step.
    pose proof (set_sample_with_mcmc_legal st w b' Hlegal) as Hset.
    destruct (set_sample_with_mcmc b' st w) as [[st1|e] st2 w2];
      exact Hset.
Qed.

(** X4.  A legal stored mode stays legal through any sequence of method
    calls: on a posterior of a family other than the density-estimation
    family the stored mode is MCMC after every call, whatever the caller
    tried. *)
Theorem methods_keep_mode_legal (cs : list Call)
    (st : Posterior Net Prior) (w : World C) :
  mode_legal st = true ->
  mode_legal (fst (call_methods cs st w)) = true
  /\ (is_density_estimation st = false ->
      _sample_with_mcmc (fst (call_methods cs st w)) = true).
Proof.
  intros Hlegal.
  assert (mode_legal (fst (call_methods cs st w)) = true) as Hend.
  { revert st w Hlegal. induction cs as [|c cs IH]; intros st w Hlegal.
    - exact Hlegal.
    - cbn [call_methods]. apply IH, call_method_legal, Hlegal. }
  split; [exact Hend|]. intros Hfam.
  pose proof (call_methods_family cs st w) as Hsame.
  unfold mode_legal, is_density_estimation in *.
  rewrite Hsame, Hfam in Hend. exact Hend.
Qed.

Lemma leakage_correction_keeps_range `{!Contracts C}
    (st : Posterior Net Prior) (w : World C) (x : Ref) (n : nat)
    (force show : bool) :
  0 < n ->
  factor_in_range st = true ->
  factor_in_range (post (leakage_correction x n force show st w)) = true.
Proof.
  intros Hn Hrange.
  destruct (leakage_correction_cases st w x n force show)
    as [[e He] | [He | [(c & _ & He) | (d & _ & He)]]];
    cbv zeta in *; rewrite He; cbn [post]; try exact Hrange.
  unfold factor_in_range. cbn. apply acceptance_is_probability, Hn.
Qed.

Lemma call_method_keeps_range `{!Contracts C} (c : Call)
    (st : Posterior Net Prior) (w : World C) :
  asks_for_samples c = true ->
  factor_in_range st = true ->
  factor_in_range (fst (call_method c st w)) = true.
Proof.
  intros Hasks Hrange.
  destruct (call_method_footprint c st w) as (b & f & Hst & _ & Hf).
  cbv zeta in Hst.
  destruct c as [b' | b' | x n force show | theta x [|]
                 | shape x show swm meth params];
    try (rewrite Hst, (Hf eq_refl); exact Hrange).
  - cbn [call_method fst]. apply leakage_correction_keeps_range.
    + cbn in Hasks. apply Nat.ltb_lt, Hasks.
    + exact Hrange.
  - cbn [call_method fst]. rewrite log_prob_normalised_steps.
    destruct (masked_log_prob st theta x) as [m|e]; [|exact Hrange].
    cbv zeta. destruct (batched_first_of_batch x st w) as [[x0|e] st0 w0];
      cbn [result post world]; [|exact Hrange].
    apply leakage_correction_keeps_range; [|exact Hrange].
    unfold default_num_rejection_samples. lia.
Qed.

(** X14.  With a rejection sampler that reports acceptance rates in (0, 1],
    a cached correction factor in that range stays in that range through
    any sequence of method calls that ask for at least one rejection sample
    whenever they estimate: the logarithm taken by a normalised
    [_log_prob_snpe] is always that of a positive number. *)
Theorem methods_keep_factor_in_range `{!Contracts C} (cs : list Call)
    (st : Posterior Net Prior) (w : World C) :
  forallb asks_for_samples cs = true ->
  factor_in_range st = true ->
  factor_in_range (fst (call_methods cs st w)) = true.
Proof.
  revert st w. induction cs as [|c cs IH]; intros st w Hall Hrange.
  - exact Hrange.
  - cbn [call_methods]. cbn [forallb] in Hall.
    apply andb_true_iff in Hall as [Hc Hall].
    apply IH; [exact Hall|]. apply call_method_keeps_range; assumption.
Qed.

(** ** The stored mode and the dispatcher; new contexts *)

Lemma checked_context_mode (st : Posterior Net Prior) (w : World C)
    (x : option Tensor) (b : bool) :
  result (checked_context x (with_sample_with_mcmc b st) w) =
  result (checked_context x st w).
Proof.
  unfold checked_context, _x_else_default_x, _ensure_single_x,
    _ensure_x_consistent_with_default_x.
  destruct x as [x|]; step; cbn [with_sample_with_mcmc default_x].
  2: destruct (default_x st) as [d|] eqn:Hd; step; [|reflexivity].
  all: match goal with
       | |- context [tshape (atleast_2d_float32_tensor ?t)] =>
           destruct (tshape (atleast_2d_float32_tensor t)) as [|[|[|k]] rest]
       end; step; try reflexivity; cbn [with_sample_with_mcmc default_x].
  - destruct (default_x st) as [d|]; step; [|reflexivity].
    destruct (x_consistent_with_default _ _); reflexivity.
  - rewrite Hd. step. destruct (x_consistent_with_default _ _); reflexivity.
Qed.

(** X15.  The dispatcher follows the stored mode: after an accepted
    [set_sample_with_mcmc(use_mcmc)], a call of [sample] without a mode
    override calls the chain runner when [use_mcmc] is true and the
    rejection sampler when it is false, once, for [numel sample_shape]
    samples. *)
Theorem sample_follows_set_mode
    (st : Posterior Net Prior) (w : World C) (use_mcmc : bool)
    (shape : list nat) (x : option Tensor) (show : bool)
    (meth : option string) (params : option (gmap string Value))
    (xr : Tensor) :
  use_mcmc = true \/ is_density_estimation st = true ->
  result (checked_context x st w) = Ok xr ->
  clashes_with_keywords (or_else params (mcmc_parameters st)) = false ->
  let o := set_sample_with_mcmc use_mcmc st w in
  let o' := sample shape x show None meth params (post o) (world o) in
  calls (world o') =
  (calls w ++
     [if use_mcmc
      then McmcCall xr (numel shape) show (or_else meth (mcmc_method st))
             (or_else params (mcmc_parameters st))
      else RejectionCall xr (numel shape) show])%list.
Proof.
  intros Hok Hx Hclash o o'. subst o o'.
  rewrite set_sample_with_mcmc_run.
  assert (negb use_mcmc && negb (is_density_estimation st) = false) as ->.
  { destruct Hok as [-> | ->]; [reflexivity | apply andb_false_r]. }
  cbn [post world].
  pose proof (sample_paths (with_sample_with_mcmc use_mcmc st) w shape x show
                None meth params) as Hrun.
  cbv zeta in Hrun. rewrite Hrun, checked_context_mode, Hx.
  cbn [or_else with_sample_with_mcmc _sample_with_mcmc mcmc_parameters
       mcmc_method].
  destruct use_mcmc; [rewrite Hclash|]; reflexivity.
Qed.

(** X16.  Normalised log-probabilities at a context other than the default
    are not amortised: when the head of the batch of contexts has the shape
    of the stored default and differs from it in value, every normalised
    call runs the rejection sampler once more, at that head, for 10 000
    samples, and leaves the posterior and its cache as they were. *)
Theorem log_prob_new_context_estimates_each_time
    (st : Posterior Net Prior) (w : World C) (theta x t : Tensor)
    (d : Ref) (m : list Float) :
  first_of_batch x = Some t ->
  default_x st = Some d ->
  tshape t = tshape (deref d) ->
  value_equal t (deref d) = false ->
  addr d < next_addr w ->
  masked_log_prob st theta x = Ok m ->
  let o := _log_prob_snpe theta x true st w in
  let o' := _log_prob_snpe theta x true (post o) (world o) in
  post o = st
  /\ calls (world o) =
     (calls w ++ [RejectionCall t default_num_rejection_samples false])%list
  /\ post o' = st
  /\ calls (world o') =
     (calls w ++ [RejectionCall t default_num_rejection_samples false;
                  RejectionCall t default_num_rejection_samples false])%list.
Proof.
  intros Hx Hd Hshape Hv Haddr Hm o o'.
  assert (forall w1 : World C,
            addr d < next_addr w1 ->
            _log_prob_snpe theta x true st w1 =
            mkOutcome
              (Ok (map (fun v =>
                          fsub v
                            (flog ln
                               (acceptance_rate st
                                  (mkWorld (rng w1) (S (next_addr w1))
                                     (calls w1))
                                  t default_num_rejection_samples false))) m))
              st
              (after_rejection st
                 (mkWorld (rng w1) (S (next_addr w1)) (calls w1)) t
                 default_num_rejection_samples false)) as Hrun.
  { intros w1 Hw1. rewrite log_prob_normalised_steps, Hm.
    rewrite (batched_first_of_batch_value st w1 x t Hx).
    cbv zeta. cbn [result world].
    rewrite leakage_correction_new; [reflexivity|].
    apply is_new_x_other.
    - unfold is_default. rewrite Hd. cbn [deref]. rewrite Hv.
      unfold is_same_object. cbn [addr].
      destruct (Nat.eqb_spec (next_addr w1) (addr d)); [lia | reflexivity].
    - unfold has_context_shape. rewrite Hd. cbn [deref].
      unfold shape_eqb. apply bool_decide_eq_true, Hshape. }
  subst o o'. rewrite (Hrun w Haddr). cbn [post world].
  rewrite Hrun by (cbn; lia).
  cbn [post world after_rejection calls]. rewrite <- app_assoc.
  auto.
Qed.

End Properties.

(** * The properties on the small instance *)

Lemma toy_contracts : Contracts Demo.toy.
Proof.
  split.
  - reflexivity.
  - intros n p x k b r. cbn. rewrite repeat_length. split; [reflexivity | lia].
  - intros st x k b m kw r t [= <-]. cbn. rewrite repeat_length.
    split; [reflexivity | lia].
Defined.

(** The two tiers of the test differ on [nan] alone: a default context
    that holds a [nan] is not equal to itself in value, and is recognised
    as the default when it is passed as the very same object. *)
Remark nan_context_is_default_by_identity :
  let x := mkRef 3 (mkTensor [1; 1] [NaN]) in
  let st := mkPosterior (Net:=unit) (Prior:=unit) "snpe" tt tt (Some x) None
              true "slice_np" ∅ in
  value_equal (deref x) (deref x) = false /\ is_default st x = true.
Proof. split; reflexivity. Qed.

(** C1 on the instance: the observation arrives in a tensor object of its
    own, nothing is cached yet; the estimate 4/5 is returned and cached. *)
Lemma leakage_correction_default_cached_witness :
  is_default Demo.snpe Demo.x_copy = true
  /\ exists d : Ref,
      default_x Demo.snpe = Some d
      /\ result (leakage_correction (C:=Demo.toy) Demo.x_copy 10 false false
                  Demo.snpe Demo.w0) = Ok (Some (Finite (4 # 5)))
      /\ _leakage_density_correction_factor
           (post (leakage_correction (C:=Demo.toy) Demo.x_copy 10 false false
                    Demo.snpe Demo.w0)) = Some (Finite (4 # 5)).
Proof.
  split; [reflexivity|].
  destruct (leakage_correction_default_cached (C:=Demo.toy) Demo.snpe Demo.w0
              Demo.x_copy 10 false false eq_refl) as [(d & Hd & Hr & _ & Hc & _) _].
  exists d. split; [exact Hd|]. split; [exact Hr | exact Hc].
Defined.

(** C4 on the instance: another observation is estimated and not cached. *)
Lemma leakage_correction_other_uncached_witness :
  is_default Demo.snpe_cached Demo.x_other = false
  /\ has_context_shape Demo.snpe_cached (deref Demo.x_other) = true
  /\ post (leakage_correction (C:=Demo.toy) Demo.x_other 10 false false
             Demo.snpe_cached Demo.w0) = Demo.snpe_cached
  /\ calls (world (leakage_correction (C:=Demo.toy) Demo.x_other 10 false
                     false Demo.snpe_cached Demo.w0)) =
     [RejectionCall (deref Demo.x_other) 10 false].
Proof.
  split; [reflexivity|]. split; [reflexivity|].
  destruct (leakage_correction_other_uncached (C:=Demo.toy) Demo.snpe_cached
              Demo.w0 Demo.x_other 10 false false eq_refl eq_refl)
    as (_ & Hp & _ & Hc & _).
  split; [exact Hp | exact Hc].
Defined.

(** C2 on the instance: the second parameter of the batch lies outside
    [0, 1]; its normalised log-probability is [-inf]. *)
Lemma log_prob_outside_support_witness :
  prior_log_prob (Collaborators:=Demo.toy) tt Demo.thetas !! 1 = Some NegInf
  /\ exists r,
      result (_log_prob_snpe (C:=Demo.toy) Demo.thetas (deref Demo.x_o) true
                Demo.snpe Demo.w0) = Ok r
      /\ length r = 2
      /\ r !! 1 = Some NegInf.
Proof.
  split; [reflexivity|].
  exact (log_prob_outside_support (C:=Demo.toy) (Contracts0:=toy_contracts)
           Demo.snpe Demo.w0 Demo.thetas (deref Demo.x_o) true 1 NegInf
           (fun _ => conj eq_refl eq_refl) eq_refl eq_refl eq_refl).
Defined.

(** C3 on the instance: the factor 4/5 shifts both entries of the batch. *)
Lemma log_prob_normalised_is_shifted_witness :
  result (_log_prob_snpe (C:=Demo.toy) Demo.thetas (deref Demo.x_o) false
            Demo.snpe Demo.w0) = Ok [Finite (-1); NegInf]
  /\ is_context_batch Demo.snpe (deref Demo.x_o) = true
  /\ exists c,
      result (_log_prob_snpe (C:=Demo.toy) Demo.thetas (deref Demo.x_o) true
                Demo.snpe Demo.w0) =
      Ok (map (fun v => fsub v (flog (ln (Collaborators:=Demo.toy)) c))
            [Finite (-1); NegInf]).
Proof.
  split; [reflexivity|]. split; [reflexivity|].
  destruct (log_prob_normalised_is_shifted (C:=Demo.toy) Demo.snpe Demo.w0
              Demo.thetas (deref Demo.x_o) [Finite (-1); NegInf]
              eq_refl eq_refl) as (x0 & w1 & c & _ & _ & Hr & _).
  exists c. exact Hr.
Defined.

(** C7 on the instance: a request of shape (3, 4) makes 12 draws and comes
    back with the shape (3, 4, 1), from the chain runner and from the
    rejection sampler alike. *)
Lemma sample_draws_and_reshapes_witness :
  0 < numel [3; 4]
  /\ (exists t,
        result (sample (C:=Demo.toy) [3; 4] None false (Some true) None None
                  Demo.snpe Demo.w0) = Ok t
        /\ tshape t = [3; 4; 1] /\ length (tdata t) = 12)
  /\ (exists t,
        result (sample (C:=Demo.toy) [3; 4] None false (Some false) None None
                  Demo.snpe Demo.w0) = Ok t
        /\ tshape t = [3; 4; 1] /\ length (tdata t) = 12).
Proof.
  assert (0 < numel [3; 4]) as Hk by (cbn; lia).
  split; [exact Hk|]. split.
  - destruct (sample_draws_and_reshapes (C:=Demo.toy)
                (Contracts0:=toy_contracts) Demo.snpe Demo.w0 [3; 4] None
                false (Some true) None None (deref Demo.x_o) Hk eq_refl
                (Demo.draws 12) eq_refl eq_refl) as (Hr & Hl & _).
    eexists. split; [exact Hr|]. split; [reflexivity | exact Hl].
  - destruct (sample_draws_and_reshapes (C:=Demo.toy)
                (Contracts0:=toy_contracts) Demo.snpe Demo.w0 [3; 4] None
                false (Some false) None None (deref Demo.x_o) Hk eq_refl)
      as (Hr & Hl & _).
    eexists. split; [exact Hr|]. split; [reflexivity | exact Hl].
Defined.

(** C7 as stated fails on a sample shape with a zero dimension: no draws
    are returned in any shape, the call raises under either strategy. *)
Lemma sample_empty_shape_counterexample :
  numel [0] = 0
  /\ ~ (exists t,
          result (sample (C:=Demo.toy) [0] None false (Some false) None None
                    Demo.snpe Demo.w0) = Ok t)
  /\ ~ (exists t,
          result (sample (C:=Demo.toy) [0] None false (Some true) None None
                    Demo.snpe Demo.w0) = Ok t).
Proof.
  split; [reflexivity|].
  split; intros [t H]; vm_compute in H; discriminate.
Qed.

(** C6 on the instance: the per-call dictionary is what the chain runner
    receives. *)
Lemma mcmc_parameters_passed_whole_witness :
  passed_kwargs
    (calls (world (sample (C:=Demo.toy) [2] None false None None
                     (Some {[ "thin" := VInt 2 ]}) Demo.snpe_configured
                     Demo.w0))) =
  Some {[ "thin" := VInt 2 ]}.
Proof.
  exact (proj1
    (mcmc_parameters_passed_whole (C:=Demo.toy) Demo.snpe_configured Demo.w0
       [2] None false None None (Some {[ "thin" := VInt 2 ]})
       (deref Demo.x_o) eq_refl eq_refl eq_refl)).
Defined.

(** C6 as stated fails: the posterior is configured with [warmup_steps]
    100, the caller overrides [thin] alone, and the dictionary that reaches
    the chain runner holds no [warmup_steps]: the key absent from the
    override did not keep its configured value. *)
Lemma stored_parameters_dropped_counterexample :
  let overrides : gmap string Value := {[ "thin" := VInt 2 ]} in
  let o := sample (C:=Demo.toy) [2] None false None None (Some overrides)
             Demo.snpe_configured Demo.w0 in
  overrides !! "warmup_steps" = None
  /\ mcmc_parameters Demo.snpe_configured !! "warmup_steps" = Some (VInt 100)
  /\ exists kw,
      passed_kwargs (calls (world o)) = Some kw
      /\ kw !! "warmup_steps" = None
      /\ ~ (forall key : string,
              overrides !! key = None ->
              kw !! key = mcmc_parameters Demo.snpe_configured !! key).
Proof.
  cbv zeta. split; [reflexivity|]. split; [reflexivity|].
  exists {[ "thin" := VInt 2 ]}. split; [reflexivity|].
  split; [reflexivity|].
  intros H. specialize (H "warmup_steps" eq_refl). vm_compute in H.
  discriminate.
Qed.

(** C8 fails on the code.  A posterior of the likelihood family is
    constructed; its stored mode is MCMC and turning MCMC off is refused.
    Yet [sample] with the override [sample_with_mcmc=False] runs the
    rejection sampler and returns its draws. *)
Lemma sample_override_bypasses_family_check :
  exists snl : Posterior unit unit,
    result (__init__ (C:=Demo.toy) "snl" tt tt true "slice_np" None Demo.w0)
      = Ok snl
    /\ is_density_estimation snl = false
    /\ mode_legal snl = true
    /\ result (set_sample_with_mcmc (C:=Demo.toy) false snl Demo.w0) =
       Raise (ValueError "snl cannot use MCMC for sampling.")
    /\ let o := sample (C:=Demo.toy) [2] (Some (deref Demo.x_o)) false
                  (Some false) None None snl Demo.w0 in
       result o = Ok (mkTensor [2; 1] [Finite (1 # 2); Finite (1 # 2)])
       /\ calls (world o) = [RejectionCall (deref Demo.x_o) 2 false]
       /\ existsb is_rejection_call (calls (world o)) = true.
Proof.
  eexists. split; [reflexivity|]. cbv zeta. repeat split.
Qed.

(** * The further properties on the small instance *)

(** X4 on the instance: after a session on the likelihood-family posterior
    in which the caller twice tries to turn MCMC off, the stored mode is
    still MCMC. *)
Lemma methods_keep_mode_legal_witness :
  mode_legal Demo.snl = true
  /\ _sample_with_mcmc
       (fst (call_methods (C:=Demo.toy) Demo.session Demo.snl Demo.w0)) = true.
Proof.
  split; [reflexivity|].
  exact (proj2 (methods_keep_mode_legal (C:=Demo.toy) Demo.session Demo.snl
                  Demo.w0 eq_refl) eq_refl).
Defined.

(** X7 on the instance: the stored observation and its copy. *)
Lemma leakage_correction_object_irrelevant_witness :
  is_default Demo.snpe Demo.x_o = true
  /\ is_default Demo.snpe Demo.x_copy = true
  /\ leakage_correction (C:=Demo.toy) Demo.x_o 10 true false Demo.snpe
       Demo.w0 =
     leakage_correction (C:=Demo.toy) Demo.x_copy 10 true false Demo.snpe
       Demo.w0.
Proof.
  split; [reflexivity|]. split; [reflexivity|].
  exact (leakage_correction_object_irrelevant (C:=Demo.toy) Demo.snpe Demo.w0
           Demo.x_o Demo.x_copy 10 true false eq_refl eq_refl).
Defined.

(** X8 on the instance: the first parameter of the batch lies in [0, 1]. *)
Lemma log_prob_inside_support_witness :
  exists r,
    result (_log_prob_snpe (C:=Demo.toy) Demo.thetas (deref Demo.x_o) false
              Demo.snpe Demo.w0) = Ok r
    /\ r !! 0 = Some (Finite (-1)).
Proof.
  exact (log_prob_inside_support (C:=Demo.toy) Demo.snpe Demo.w0 Demo.thetas
           (deref Demo.x_o) 0 fzero (Finite (-1))
           eq_refl eq_refl eq_refl eq_refl).
Defined.

(** X9 on the instance: two normalised calls, one estimate. *)
Lemma log_prob_repeated_single_estimate_witness :
  exists c,
    _leakage_density_correction_factor
      (post (_log_prob_snpe (C:=Demo.toy) Demo.thetas (deref Demo.x_o) true
               Demo.snpe Demo.w0)) = Some c
    /\ calls
         (world
            (_log_prob_snpe (C:=Demo.toy) Demo.thetas (deref Demo.x_o) true
               (post (_log_prob_snpe (C:=Demo.toy) Demo.thetas
                        (deref Demo.x_o) true Demo.snpe Demo.w0))
               (world (_log_prob_snpe (C:=Demo.toy) Demo.thetas
                         (deref Demo.x_o) true Demo.snpe Demo.w0)))) =
       calls (world (_log_prob_snpe (C:=Demo.toy) Demo.thetas
                       (deref Demo.x_o) true Demo.snpe Demo.w0)).
Proof.
  destruct (log_prob_repeated_single_estimate (C:=Demo.toy) Demo.snpe Demo.w0
              Demo.thetas Demo.thetas (deref Demo.x_o) (deref Demo.x_o)
              Demo.x_o [Finite (-1); NegInf] [Finite (-1); NegInf]
              eq_refl eq_refl eq_refl eq_refl eq_refl)
    as (c & _ & Hc & _ & _ & _ & Hcalls).
  exists c. split; [exact Hc | exact Hcalls].
Defined.

(** X10 on the instance: a dictionary that names [num_samples]. *)
Lemma sample_keyword_clash_witness :
  result (sample (C:=Demo.toy) [2] None false (Some true) None
            (Some {[ "num_samples" := VInt 5 ]}) Demo.snpe Demo.w0) =
  Raise (TypeError "got multiple values for keyword argument").
Proof.
  rewrite (sample_keyword_clash (C:=Demo.toy) Demo.snpe Demo.w0 [2] None
             false (Some true) None (Some {[ "num_samples" := VInt 5 ]})
             (deref Demo.x_o) "num_samples" eq_refl eq_refl).
  - reflexivity.
  - unfold explicit_keywords. apply list_elem_of_In. cbn. auto.
  - eexists. reflexivity.
Defined.

(** X11 on the instance: under rejection sampling the same dictionary is
    not even looked at. *)
Lemma sample_rejection_ignores_mcmc_settings_witness :
  sample (C:=Demo.toy) [2] None false (Some false) (Some "nuts")
    (Some {[ "num_samples" := VInt 5 ]}) Demo.snpe Demo.w0 =
  sample (C:=Demo.toy) [2] None false (Some false) None None Demo.snpe
    Demo.w0.
Proof.
  exact (sample_rejection_ignores_mcmc_settings (C:=Demo.toy) Demo.snpe
           Demo.w0 [2] None false (Some false) (Some "nuts") None
           (Some {[ "num_samples" := VInt 5 ]}) None eq_refl).
Defined.

(** X14 on the instance: the cached factor after the session. *)
Lemma methods_keep_factor_in_range_witness :
  forallb asks_for_samples Demo.session = true
  /\ factor_in_range
       (fst (call_methods (C:=Demo.toy) Demo.session Demo.snl Demo.w0)) = true.
Proof.
  split; [reflexivity|].
  exact (methods_keep_factor_in_range (C:=Demo.toy)
           (Contracts0:=toy_contracts) Demo.session Demo.snl Demo.w0
           eq_refl eq_refl).
Defined.

(** X15 on the instance: rejection sampling is turned on for the
    density-estimation posterior, and [sample] then rejects. *)
Lemma sample_follows_set_mode_witness :
  calls
    (world
       (sample (C:=Demo.toy) [2] None false None None None
          (post (set_sample_with_mcmc (C:=Demo.toy) false Demo.snpe Demo.w0))
          (world (set_sample_with_mcmc (C:=Demo.toy) false Demo.snpe
                    Demo.w0)))) =
  [RejectionCall (deref Demo.x_o) 2 false].
Proof.
  exact (sample_follows_set_mode (C:=Demo.toy) Demo.snpe Demo.w0 false [2]
           None false None None (deref Demo.x_o) (or_intror eq_refl) eq_refl
           eq_refl).
Defined.

(** X16 on the instance: two normalised calls at another observation. *)
Lemma log_prob_new_context_estimates_each_time_witness :
  length
    (calls
       (world
          (_log_prob_snpe (C:=Demo.toy) Demo.thetas (deref Demo.x_other) true
             (post (_log_prob_snpe (C:=Demo.toy) Demo.thetas
                      (deref Demo.x_other) true Demo.snpe_cached Demo.w0))
             (world (_log_prob_snpe (C:=Demo.toy) Demo.thetas
                       (deref Demo.x_other) true Demo.snpe_cached Demo.w0)))))
  = 2.
Proof.
  destruct (log_prob_new_context_estimates_each_time (C:=Demo.toy)
              Demo.snpe_cached Demo.w0 Demo.thetas (deref Demo.x_other)
              (deref Demo.x_other) Demo.x_o [Finite (-1); NegInf]
              eq_refl eq_refl eq_refl eq_refl (Nat.lt_0_succ 0) eq_refl)
    as (_ & _ & _ & Hcalls).
  rewrite Hcalls. reflexivity.
Defined.
